(** * zhibo-class: the live-session service of [main.go]

    A shallow embedding of the request handlers of [main.go] and of the
    SQL statements they send, followed by the properties of the session
    life cycle ([pending], [live], [ended]), of the derived playback
    endpoints, of stream-key generation and of the quiz options column.

    Conventions.
    - The relational store is explicit state.  The [live_sessions] and
      [questions] tables are finite maps from the auto-increment primary
      key to the remaining columns.
    - Everything a handler reads from outside (the store clock [NOW()], the
      process clock [time.Now()], driver errors, the reply of the Livego
      server) is a field of the environment [Env] of the request.
    - A handler is a function from the environment, the bound request and
      the store to the new store and the HTTP response. *)

From Stdlib Require Import ZArith Ascii String DecimalString.
From stdpp Require Import gmap strings list fin_maps.

Local Open Scope Z_scope.
Local Open Scope string_scope.

(** ** Configuration and wire types *)

Record Config := {
  DBUser : string;
  DBPassword : string;
  DBHost : string;
  DBPort : Z;
  DBName : string;
  LivegoURL : string;
  APIPort : Z
}.

(** [time.Time] fields are instants in seconds; [None] is Go's zero
    time. *)
Record LiveSession := {
  ID : Z;
  CourseID : Z;
  StreamKey : string;
  Status : string;
  StartTime : option Z;
  EndTime : option Z;
  CreatedAt : option Z;
  PlayURLs : gmap string string
}.

Record Question := {
  QID : Z;
  QCourseID : Z;
  QType : string;
  QContent : string;
  QOptions : list string;
  QAnswer : string
}.

(** The JSON bodies the handlers write: [gin.H{"error": ..}],
    [gin.H{"message": ..}], a session, a question, or nothing at all (the
    recovery middleware of [gin.Default] after a panic). *)
Inductive Body :=
| JError (msg : string)
| JMessage (msg : string)
| JSession (s : LiveSession)
| JQuestion (q : Question)
| JNone.

Record Response := { code : Z; body : Body }.

Definition StatusOK : Z := 200.
Definition StatusCreated : Z := 201.
Definition StatusBadRequest : Z := 400.
Definition StatusNotFound : Z := 404.
Definition StatusInternalServerError : Z := 500.

(** Outcome of [c.ShouldBindJSON]: the binder's error text, or the bound
    value.  The [binding:"required"] tags are checked by the binder, so a
    missing or zero required field arrives here as [BindErr]. *)
Inductive Bind (A : Type) :=
| BindErr (msg : string)
| BindOk (a : A).
Arguments BindErr {A} msg.
Arguments BindOk {A} a.

(** Reply of [http.Post]: a transport error, or the status code and the
    status line of the response. *)
Inductive HttpReply :=
| TransportError (msg : string)
| HttpResponse (status_code : Z) (status : string).

(** ** The environment of one request *)

Record Env := {
  (** [NOW()] as evaluated by the store for this request's statement *)
  sql_now : Z;
  (** [time.Now().Unix()] read by [generateStreamKey] *)
  unix : Z;
  (** the successive [time.Now().UnixNano()] readings of
      [generateRandomString], one per loop iteration *)
  unix_nano : nat → Z;
  (** [time.Now()] read for [CreatedAt] in the response of Create *)
  wall : Z;
  (** [db.Exec] / [db.QueryRow] returns a driver error: the statement is
      not executed *)
  exec_fails : bool;
  (** [result.LastInsertId()] / [result.RowsAffected()] returns an error *)
  result_fails : bool;
  (** the compensating [DELETE] of Create returns a driver error *)
  rollback_fails : bool;
  (** the Livego server, as a function of the URL posted to *)
  livego_post : string → HttpReply
}.

(** ** Stream keys *)

Definition charset : string :=
  "abcdefghijklmnopqrstuvwxyzABCDEFGHIJKLMNOPQRSTUVWXYZ0123456789".

(** [charset[n]] for an [int64] index: a negative or too large index is a
    run-time panic ([None]). *)
Definition charset_at (n : Z) : option ascii :=
  if (n <? 0)%Z then None else String.get (Z.to_nat n) charset.

(** The loop of [generateRandomString]: iteration [i] stores
    [charset[time.Now().UnixNano() % int64(len(charset))]]; Go's [%]
    truncates towards zero, which is [Z.rem]. *)
Fixpoint random_bytes (nano : nat → Z) (i : nat) (n : nat) : option string :=
  match n with
  | O => Some ""
  | S n' =>
      match charset_at (Z.rem (nano i) (Z.of_nat (String.length charset))) with
      | None => None
      | Some c =>
          match random_bytes nano (S i) n' with
          | None => None
          | Some rest => Some (String c rest)
          end
      end
  end.

Definition generateRandomString (nano : nat → Z) (length : nat) : option string :=
  random_bytes nano 0 length.

(** [fmt.Sprintf("%d", n)] *)
Definition sprint_d (n : Z) : string := NilZero.string_of_int (Z.to_int n).

(** [fmt.Sprintf("live_%d_%s", time.Now().Unix(), generateRandomString(10))] *)
Definition generateStreamKey (e : Env) : option string :=
  match generateRandomString (unix_nano e) 10 with
  | None => None
  | Some r => Some ("live_" +:+ sprint_d (unix e) +:+ "_" +:+ r)
  end.

(** ** Derived playback endpoints *)

Definition getPlayURLs (cfg : Config) (streamKey : string) : gmap string string :=
  <["hls" := "http://" +:+ LivegoURL cfg +:+ ":7002/live/" +:+ streamKey +:+ ".m3u8"]>
  (<["flv" := "http://" +:+ LivegoURL cfg +:+ ":7001/live/" +:+ streamKey +:+ ".flv"]>
  (<["rtmp" := "rtmp://" +:+ LivegoURL cfg +:+ "/live/" +:+ streamKey]> ∅)).

(** ASCII lower case, as [net/url] applies it to the scheme of a URL. *)
Definition lower (c : ascii) : ascii :=
  let n := nat_of_ascii c in
  if decide (65 ≤ n ≤ 90)%nat then ascii_of_nat (n + 32) else c.

(** [p], in lower case, is a prefix of [s] up to ASCII case. *)
Fixpoint has_prefix_fold (p s : string) : bool :=
  match p, s with
  | EmptyString, _ => true
  | String a p', String b s' =>
      if decide (a = lower b) then has_prefix_fold p' s' else false
  | String _ _, EmptyString => false
  end.

(** [http.Post]: only a URL of scheme [http] or [https] is sent at all; any
    other text is refused by the client before a request leaves the
    process.  What is sent is answered by the environment. *)
Definition http_Post (e : Env) (url : string) : HttpReply :=
  if has_prefix_fold "http://" url || has_prefix_fold "https://" url
  then livego_post e url
  else TransportError "unsupported protocol scheme".

(** [createStreamInLivego]: [None] is the [nil] error. *)
Definition createStreamInLivego (cfg : Config) (e : Env) (streamKey : string)
  : option string :=
  let url := LivegoURL cfg +:+ "/api/stream/add?stream=" +:+ streamKey in
  match http_Post e url with
  | TransportError msg => Some msg
  | HttpResponse status_code status =>
      if decide (status_code ≠ StatusOK)
      then Some ("failed to create stream in Livego: " +:+ status)
      else None
  end.

(** ** The relational store *)

(** Modelled from the spec: the declarations of the tables are not part of
    the sources.  The spec's data model gives a session a store-assigned,
    unique numeric identifier and optional start and end timestamps, so
    [live_sessions] is a finite map from the auto-increment primary key to
    the other columns, and a timestamp column that no statement has written
    holds [NULL], which is [None]. *)
Record SessionRow := {
  course_id : Z;
  stream_key : string;
  status : string;
  start_time : option Z;
  end_time : option Z;
  created_at : option Z
}.

Record QuestionRow := {
  q_course_id : Z;
  q_type : string;
  q_content : string;
  q_options : string;
  q_answer : string
}.

Record Store := {
  live_sessions : gmap Z SessionRow;
  live_sessions_auto_increment : Z;
  questions : gmap Z QuestionRow;
  questions_auto_increment : Z
}.

(** [sql.Result] *)
Record SqlResult := { last_insert_id : Z; rows_affected : Z }.

(** A statement either is rejected by the store ([None]) or yields the new
    store and its [sql.Result]. *)
Definition Statement : Type := Store → option (Store * SqlResult).

(** [db.Exec]: a driver error leaves the store as it is. *)
Definition Exec (fails : bool) (stmt : Statement) (db : Store)
  : Store * option SqlResult :=
  if fails then (db, None)
  else match stmt db with
       | None => (db, None)
       | Some (db', result) => (db', Some result)
       end.

Definition LastInsertId (e : Env) (result : SqlResult) : option Z :=
  if result_fails e then None else Some (last_insert_id result).

Definition RowsAffected (e : Env) (result : SqlResult) : option Z :=
  if result_fails e then None else Some (rows_affected result).

Definition with_live_sessions (db : Store) (t : gmap Z SessionRow) (next : Z) : Store :=
  {| live_sessions := t;
     live_sessions_auto_increment := next;
     questions := questions db;
     questions_auto_increment := questions_auto_increment db |}.

(** [INSERT INTO live_sessions (course_id, stream_key, status, created_at)
     VALUES (?, ?, 'pending', NOW())]; a taken primary key is a
    duplicate-entry error. *)
Definition insert_live_session (courseID : Z) (streamKey : string) (now : Z)
  : Statement := λ db,
  let id := live_sessions_auto_increment db in
  match live_sessions db !! id with
  | Some _ => None
  | None =>
      let row := {| course_id := courseID; stream_key := streamKey;
                    status := "pending"; start_time := None;
                    end_time := None; created_at := Some now |} in
      Some (with_live_sessions db (<[id := row]> (live_sessions db)) (id + 1),
            {| last_insert_id := id; rows_affected := 1 |})
  end.

(** [DELETE FROM live_sessions WHERE id = ?] *)
Definition delete_live_session (id : Z) : Statement := λ db,
  Some (with_live_sessions db (delete id (live_sessions db))
          (live_sessions_auto_increment db),
        {| last_insert_id := 0;
           rows_affected := match live_sessions db !! id with
                            | Some _ => 1
                            | None => 0
                            end |}).

(** [UPDATE live_sessions SET .. WHERE ..]: every row the condition selects
    is rewritten ([updated]), and the result counts them ([selected]). *)
Definition updated (cond : Z → SessionRow → bool) (set : SessionRow → SessionRow)
    (db : Store) : Store :=
  with_live_sessions db
    (map_imap (λ id row, Some (if cond id row then set row else row))
       (live_sessions db))
    (live_sessions_auto_increment db).

Definition selected (cond : Z → SessionRow → bool) (db : Store) : nat :=
  size (filter (λ kr, cond kr.1 kr.2 = true) (live_sessions db)).

Definition update_live_sessions (cond : Z → SessionRow → bool)
    (set : SessionRow → SessionRow) : Statement := λ db,
  Some (updated cond set db,
        {| last_insert_id := 0; rows_affected := Z.of_nat (selected cond db) |}).

(** [SET status = 'live', start_time = NOW()] *)
Definition set_live (now : Z) (r : SessionRow) : SessionRow :=
  {| course_id := course_id r; stream_key := stream_key r; status := "live";
     start_time := Some now; end_time := end_time r;
     created_at := created_at r |}.

(** [SET status = 'ended', end_time = NOW()] *)
Definition set_ended (now : Z) (r : SessionRow) : SessionRow :=
  {| course_id := course_id r; stream_key := stream_key r; status := "ended";
     start_time := start_time r; end_time := Some now;
     created_at := created_at r |}.

(** [WHERE id = ? AND status = '..'].  The statuses the statements write
    and compare are the three lower-case literals, so the comparison of
    the store is taken as equality of strings. *)
Definition where_id_status (id : Z) (st : string) (k : Z) (r : SessionRow) : bool :=
  bool_decide (k = id) && bool_decide (status r = st).

(** [WHERE stream_key = ? AND status = '..'] *)
Definition where_stream_key_status (key st : string) (k : Z) (r : SessionRow) : bool :=
  bool_decide (stream_key r = key) && bool_decide (status r = st).

(** [db.QueryRow(..).Scan(..)] *)
Inductive Scanned (A : Type) :=
| ErrNoRows
| ScanError
| Row (a : A).
Arguments ErrNoRows {A}.
Arguments ScanError {A}.
Arguments Row {A} a.

(** [SELECT id, course_id, stream_key, status, start_time, end_time,
     created_at FROM live_sessions WHERE id = ?] scanned into a
    [LiveSession] whose [PlayURLs] is still the nil map.  The three
    timestamps are scanned into plain [time.Time] fields, and [Scan] of a
    [NULL] into a [time.Time] is an error. *)
Definition select_live_session (e : Env) (id : Z) (db : Store) : Scanned LiveSession :=
  if exec_fails e then ScanError
  else match live_sessions db !! id with
       | None => ErrNoRows
       | Some r =>
           match start_time r, end_time r, created_at r with
           | Some startTime, Some endTime, Some createdAt =>
               Row {| ID := id; CourseID := course_id r;
                      StreamKey := stream_key r; Status := status r;
                      StartTime := Some startTime; EndTime := Some endTime;
                      CreatedAt := Some createdAt; PlayURLs := ∅ |}
           | _, _, _ => ScanError
           end
       end.

(** ** Live-session handlers *)

Definition reply (c : Z) (b : Body) : Response := {| code := c; body := b |}.

Definition createLiveSession (cfg : Config) (e : Env) (req : Bind Z) (db : Store)
  : Store * Response :=
  match req with
  | BindErr msg => (db, reply StatusBadRequest (JError msg))
  | BindOk courseID =>
      match generateStreamKey e with
      | None => (db, reply StatusInternalServerError JNone)
      | Some streamKey =>
          match Exec (exec_fails e)
                  (insert_live_session courseID streamKey (sql_now e)) db with
          | (db1, None) =>
              (db1, reply StatusInternalServerError
                      (JError "Failed to create live session"))
          | (db1, Some result) =>
              match LastInsertId e result with
              | None =>
                  (db1, reply StatusInternalServerError
                          (JError "Failed to get session ID"))
              | Some id =>
                  match createStreamInLivego cfg e streamKey with
                  | Some _ =>
                      ((Exec (rollback_fails e) (delete_live_session id) db1).1,
                       reply StatusInternalServerError
                         (JError "Failed to create stream in Livego"))
                  | None =>
                      (db1, reply StatusCreated
                              (JSession {| ID := id; CourseID := courseID;
                                           StreamKey := streamKey;
                                           Status := "pending";
                                           StartTime := None; EndTime := None;
                                           CreatedAt := Some (wall e);
                                           PlayURLs := getPlayURLs cfg streamKey |}))
                  end
              end
          end
      end
  end.

Definition with_play_urls (s : LiveSession) (urls : gmap string string) : LiveSession :=
  {| ID := ID s; CourseID := CourseID s; StreamKey := StreamKey s;
     Status := Status s; StartTime := StartTime s; EndTime := EndTime s;
     CreatedAt := CreatedAt s; PlayURLs := urls |}.

(** The path parameter [id] is taken as the number the store compares the
    primary key with. *)
Definition getLiveSession (cfg : Config) (e : Env) (id : Z) (db : Store) : Response :=
  match select_live_session e id db with
  | ErrNoRows => reply StatusNotFound (JError "Live session not found")
  | ScanError => reply StatusInternalServerError (JError "Failed to get live session")
  | Row session =>
      reply StatusOK
        (JSession (if decide (Status session = "live")
                   then with_play_urls session (getPlayURLs cfg (StreamKey session))
                   else session))
  end.

(** [UPDATE live_sessions SET status = 'live', start_time = NOW()
     WHERE id = ? AND status = 'pending'] *)
Definition start_statement (e : Env) (id : Z) : Statement :=
  update_live_sessions (where_id_status id "pending") (set_live (sql_now e)).

(** What [startLiveSession] answers once [db.Exec] has returned. *)
Definition start_reply (e : Env) (res : option SqlResult) : Response :=
  match res with
  | None => reply StatusInternalServerError (JError "Failed to start live session")
  | Some result =>
      match RowsAffected e result with
      | None => reply StatusInternalServerError (JError "Failed to check rows affected")
      | Some rowsAffected =>
          if decide (rowsAffected = 0)
          then reply StatusBadRequest (JError "Live session not found or already started")
          else reply StatusOK (JMessage "Live session started successfully")
      end
  end.

Definition startLiveSession (e : Env) (id : Z) (db : Store) : Store * Response :=
  let '(db', res) := Exec (exec_fails e) (start_statement e id) db in
  (db', start_reply e res).

(** [UPDATE live_sessions SET status = 'ended', end_time = NOW()
     WHERE id = ? AND status = 'live'] *)
Definition end_statement (e : Env) (id : Z) : Statement :=
  update_live_sessions (where_id_status id "live") (set_ended (sql_now e)).

Definition end_reply (e : Env) (res : option SqlResult) : Response :=
  match res with
  | None => reply StatusInternalServerError (JError "Failed to end live session")
  | Some result =>
      match RowsAffected e result with
      | None => reply StatusInternalServerError (JError "Failed to check rows affected")
      | Some rowsAffected =>
          if decide (rowsAffected = 0)
          then reply StatusBadRequest (JError "Live session not found or already ended")
          else reply StatusOK (JMessage "Live session ended successfully")
      end
  end.

Definition endLiveSession (e : Env) (id : Z) (db : Store) : Store * Response :=
  let '(db', res) := Exec (exec_fails e) (end_statement e id) db in
  (db', end_reply e res).

(** ** The Livego status callback *)

Record Callback := { StreamPath : string; CallbackStatus : string }.

(** [strings.Split(s, sep)] for a separator of one byte. *)
Fixpoint Split (s : string) (sep : ascii) : list string :=
  match s with
  | EmptyString => [""]
  | String c s' =>
      if decide (c = sep) then "" :: Split s' sep
      else match Split s' sep with
           | [] => [String c ""]
           | p :: ps => String c p :: ps
           end
  end.

Definition slash : ascii := "/"%char.

(** The two guarded updates of the callback, by stream key.  In the handler
    below [len(parts) < 3] is [parts !! 2 = None], and [parts[2]] is the
    value of that lookup. *)
Definition callback_start_statement (e : Env) (streamKey : string) : Statement :=
  update_live_sessions (where_stream_key_status streamKey "pending")
    (set_live (sql_now e)).

Definition callback_stop_statement (e : Env) (streamKey : string) : Statement :=
  update_live_sessions (where_stream_key_status streamKey "live")
    (set_ended (sql_now e)).

Definition handleLiveStatusCallback (e : Env) (req : Bind Callback) (db : Store)
  : Store * Response :=
  match req with
  | BindErr msg => (db, reply StatusBadRequest (JError msg))
  | BindOk callback =>
      let parts := Split (StreamPath callback) slash in
      match parts !! 2%nat with
      | None => (db, reply StatusBadRequest (JError "Invalid stream path"))
      | Some streamKey =>
          let db' :=
            if decide (CallbackStatus callback = "start")
            then (Exec (exec_fails e) (callback_start_statement e streamKey) db).1
            else if decide (CallbackStatus callback = "stop")
            then (Exec (exec_fails e) (callback_stop_statement e streamKey) db).1
            else db in
          (db', reply StatusOK (JMessage "Callback received"))
      end
  end.

(** ** Quiz questions *)

(** [strings.Join(elems, sep)] *)
Fixpoint Join (elems : list string) (sep : string) : string :=
  match elems with
  | [] => ""
  | [x] => x
  | x :: rest => x +:+ sep +:+ Join rest sep
  end.

(** [INSERT INTO questions (course_id, type, content, options, answer)
     VALUES (?, ?, ?, ?, ?)] *)
Definition insert_question (row : QuestionRow) : Statement := λ db,
  let id := questions_auto_increment db in
  match questions db !! id with
  | Some _ => None
  | None =>
      Some ({| live_sessions := live_sessions db;
               live_sessions_auto_increment := live_sessions_auto_increment db;
               questions := <[id := row]> (questions db);
               questions_auto_increment := id + 1 |},
            {| last_insert_id := id; rows_affected := 1 |})
  end.

Definition with_id (q : Question) (id : Z) : Question :=
  {| QID := id; QCourseID := QCourseID q; QType := QType q;
     QContent := QContent q; QOptions := QOptions q; QAnswer := QAnswer q |}.

Definition createQuestion (e : Env) (req : Bind Question) (db : Store)
  : Store * Response :=
  match req with
  | BindErr msg => (db, reply StatusBadRequest (JError msg))
  | BindOk question =>
      let row := {| q_course_id := QCourseID question; q_type := QType question;
                    q_content := QContent question;
                    q_options := Join (QOptions question) ",";
                    q_answer := QAnswer question |} in
      match Exec (exec_fails e) (insert_question row) db with
      | (db1, None) =>
          (db1, reply StatusInternalServerError (JError "Failed to create question"))
      | (db1, Some result) =>
          match LastInsertId e result with
          | None =>
              (db1, reply StatusInternalServerError (JError "Failed to get question ID"))
          | Some id => (db1, reply StatusCreated (JQuestion (with_id question id)))
          end
      end
  end.

(** [Scan] of the [options] column into [&question.Options]: the
    destination is a [*[]string], which [database/sql] neither assigns a
    text column to nor converts it into, so the scan reports
    "unsupported Scan" whatever the column holds. *)
Definition scan_string_slice (column : string) : option (list string) := None.

(** [SELECT id, course_id, type, content, options, answer FROM questions
     WHERE id = ? AND course_id = ?] scanned into a [Question]. *)
Definition select_question (e : Env) (questionID courseID : Z) (db : Store)
  : Scanned Question :=
  if exec_fails e then ScanError
  else match questions db !! questionID with
       | None => ErrNoRows
       | Some r =>
           if decide (q_course_id r = courseID) then
             match scan_string_slice (q_options r) with
             | None => ScanError
             | Some options =>
                 Row {| QID := questionID; QCourseID := q_course_id r;
                        QType := q_type r; QContent := q_content r;
                        QOptions := options; QAnswer := q_answer r |}
             end
           else ErrNoRows
       end.

Definition pushQuestion (e : Env) (courseID questionID : Z) (db : Store) : Response :=
  match select_question e questionID courseID db with
  | ErrNoRows => reply StatusNotFound (JError "Question not found")
  | ScanError => reply StatusInternalServerError (JError "Failed to get question")
  | Row question => reply StatusOK (JQuestion question)
  end.

(** ** Routes *)

Inductive Request :=
| PostLiveSessions (req : Bind Z)
| GetLiveSession (id : Z)
| PostLiveSessionStart (id : Z)
| PostLiveSessionEnd (id : Z)
| PostLiveStatus (req : Bind Callback)
| PostQuestionCreate (req : Bind Question)
| GetQuestionPush (course_id question_id : Z).

(** The routing table of [initRouter]. *)
Definition initRouter (cfg : Config) (e : Env) (r : Request) (db : Store)
  : Store * Response :=
  match r with
  | PostLiveSessions req => createLiveSession cfg e req db
  | GetLiveSession id => (db, getLiveSession cfg e id db)
  | PostLiveSessionStart id => startLiveSession e id db
  | PostLiveSessionEnd id => endLiveSession e id db
  | PostLiveStatus req => handleLiveStatusCallback e req db
  | PostQuestionCreate req => createQuestion e req db
  | GetQuestionPush course_id question_id =>
      (db, pushQuestion e course_id question_id db)
  end.

(** The store after serving a sequence of requests, one after the other. *)
Fixpoint serve (cfg : Config) (reqs : list (Env * Request)) (db : Store) : Store :=
  match reqs with
  | [] => db
  | (e, r) :: reqs' => serve cfg reqs' (initRouter cfg e r db).1
  end.

(** ** Two requests in flight *)

(** A [startLiveSession] request is first about to send its statement, then
    holds what [db.Exec] returned, then has answered.  The store runs the
    statement of one request at a time; the steps of two requests
    interleave in any order. *)
Inductive StartThread :=
| Sending (e : Env) (id : Z)
| Returned (e : Env) (res : option SqlResult)
| Answered (r : Response).

Definition thread_next (db : Store) (t : StartThread) : Store * StartThread :=
  match t with
  | Sending e id =>
      ((Exec (exec_fails e) (start_statement e id) db).1,
       Returned e (Exec (exec_fails e) (start_statement e id) db).2)
  | Returned e res => (db, Answered (start_reply e res))
  | Answered r => (db, Answered r)
  end.

(** An interleaving is a schedule: [true] lets the first request take its
    next step, [false] the second. *)
Fixpoint race (schedule : list bool) (c : Store * StartThread * StartThread)
  : Store * StartThread * StartThread :=
  match schedule with
  | [] => c
  | first :: schedule' =>
      let '(db, a, b) := c in
      if first
      then let '(db', a') := thread_next db a in race schedule' (db', a', b)
      else let '(db', b') := thread_next db b in race schedule' (db', a, b')
  end.

(** ** Sample data *)

Definition cfg0 : Config :=
  {| DBUser := "root"; DBPassword := "secret"; DBHost := "127.0.0.1";
     DBPort := 3306; DBName := "zhibo"; LivegoURL := "livego.local";
     APIPort := 8080 |}.

(** A configuration whose [LivegoURL] carries the scheme that
    [createStreamInLivego] needs. *)
Definition cfg1 : Config :=
  {| DBUser := "root"; DBPassword := "secret"; DBHost := "127.0.0.1";
     DBPort := 3306; DBName := "zhibo"; LivegoURL := "http://livego.local:8090";
     APIPort := 8080 |}.

Definition empty_store : Store :=
  {| live_sessions := ∅; live_sessions_auto_increment := 1;
     questions := ∅; questions_auto_increment := 1 |}.

Definition livego_up (url : string) : HttpReply := HttpResponse 200 "200 OK".
Definition livego_down (url : string) : HttpReply :=
  HttpResponse 500 "500 Internal Server Error".

(** A request served at second [now], whose clock readings start at
    nanosecond [nano] and advance by [tick] per reading. *)
Definition env_at (now nano tick : Z) (livego : string → HttpReply) : Env :=
  {| sql_now := now; unix := now; unix_nano := λ i, nano + tick * Z.of_nat i;
     wall := now; exec_fails := false; result_fails := false;
     rollback_fails := false; livego_post := livego |}.

Definition e1 : Env := env_at 1700000000 1700000000000000000 1 livego_up.

(** A store holding one session in each state: 1 is [pending], 2 is [live]
    and 3 is [ended]. *)
Definition sample_row (st : string) (started ended : option Z) : SessionRow :=
  {| course_id := 42; stream_key := "live_1700000000_" +:+ st; status := st;
     start_time := started; end_time := ended; created_at := Some 1700000000 |}.

Definition sample_store : Store :=
  {| live_sessions :=
       <[1 := sample_row "pending" None None]>
       (<[2 := sample_row "live" (Some 1700000100) None]>
       (<[3 := sample_row "ended" (Some 1700000100) (Some 1700000200)]> ∅));
     live_sessions_auto_increment := 4;
     questions := ∅; questions_auto_increment := 1 |}.

(** The sample store after End and a stop callback aimed at the pending
    session 1, and Start aimed at the ended session 3. *)
Definition sample_requests : list (Env * Request) :=
  [ (e1, PostLiveSessionEnd 1);
    (e1, PostLiveStatus
           (BindOk {| StreamPath := "/live/live_1700000000_pending";
                      CallbackStatus := "stop" |}));
    (e1, PostLiveSessionStart 3) ].

Definition e_livego_down : Env :=
  env_at 1700000000 1700000000000000000 62 livego_down.

(** Two requests of the same second, 6200 ns apart, each reading the clock
    every 62 ns. *)
Definition e_first : Env := env_at 1700000000 1700000000000000000 62 livego_up.
Definition e_second : Env := env_at 1700000000 1700000000000006200 62 livego_up.

Definition e_later : Env := env_at 1700000005 1700000005000000000 62 livego_up.

Definition question_with (options : list string) : Question :=
  {| QID := 0; QCourseID := 7; QType := "choice"; QContent := "pick one";
     QOptions := options; QAnswer := "a" |}.

(** ** The vocabulary of the properties *)

(** The life cycle: [pending → live → ended]. *)
Inductive transition : string → string → Prop :=
| go_live : transition "pending" "live"
| go_ended : transition "live" "ended".

(** What one request may do to a stored session. *)
Definition row_moves (now : Z) (r r' : SessionRow) : Prop :=
  r' = r
  ∨ (status r = "pending" ∧ r' = set_live now r)
  ∨ (status r = "live" ∧ r' = set_ended now r).

(** The shape of a row that [createLiveSession] has just inserted. *)
Definition fresh_row (r : SessionRow) : Prop :=
  status r = "pending" ∧ start_time r = None ∧ end_time r = None.

(** The store after the guarded update by primary key has rewritten row [r]. *)
Definition rewritten (id : Z) (r' : SessionRow) (db : Store) : Store :=
  with_live_sessions db (<[id := r']> (live_sessions db))
    (live_sessions_auto_increment db).

Definition start_ok : Response :=
  reply StatusOK (JMessage "Live session started successfully").
Definition start_refused : Response :=
  reply StatusBadRequest (JError "Live session not found or already started").
Definition end_ok : Response :=
  reply StatusOK (JMessage "Live session ended successfully").
Definition end_refused : Response :=
  reply StatusBadRequest (JError "Live session not found or already ended").
Definition callback_ack : Response :=
  reply StatusOK (JMessage "Callback received").
Definition provisioning_failed : Response :=
  reply StatusInternalServerError (JError "Failed to create stream in Livego").
Definition session_not_found : Response :=
  reply StatusNotFound (JError "Live session not found").

(** [key] occurs in [url]. *)
Definition contains (url key : string) : Prop :=
  ∃ pre post, url = pre +:+ key +:+ post.

(** The session of a response, if it carries one. *)
Definition session_of (resp : Response) : option LiveSession :=
  match body resp with
  | JSession s => Some s
  | _ => None
  end.

Definition one_row : SqlResult := {| last_insert_id := 0; rows_affected := 1 |}.
Definition no_row : SqlResult := {| last_insert_id := 0; rows_affected := 0 |}.

(** A request whose statement rewrote the row, and one that found nothing
    to rewrite. *)
Definition won (e : Env) (t : StartThread) : Prop :=
  t = Returned e (Some one_row) ∨ t = Answered start_ok.
Definition lost (e : Env) (t : StartThread) : Prop :=
  t = Returned e (Some no_row) ∨ t = Answered start_refused.

(** The store after request [e] has started session [id], whose row was [r]. *)
Definition started_by (id : Z) (r : SessionRow) (db : Store) (e : Env) : Store :=
  rewritten id (set_live (sql_now e) r) db.

(** What holds at every point of every interleaving of two Starts, sent
    with [ea] and [eb], for the [pending] session [id] of [db]. *)
Definition race_inv (ea eb : Env) (id : Z) (r : SessionRow) (db : Store)
    (c : Store * StartThread * StartThread) : Prop :=
  let '(db', a, b) := c in
  (db' = db ∧ a = Sending ea id ∧ b = Sending eb id)
  ∨ (db' = started_by id r db ea ∧ won ea a ∧ (b = Sending eb id ∨ lost eb b))
  ∨ (db' = started_by id r db eb ∧ (a = Sending ea id ∨ lost ea a) ∧ won eb b).

(** ** Answers and their tally *)

(** The bound body of [submitAnswer]; all three fields are [required]. *)
Record AnswerForm := { QuestionID : Z; StudentID : Z; Answer : string }.

(** Modelled from the spec: the declaration of the [answers] table is not
    part of the sources.  The statements name three columns and no key of
    the table, so the table is the bag of its rows. *)
Record AnswerRow := { a_question_id : Z; a_student_id : Z; a_answer : string }.

(** The store together with the [answers] table. *)
Record Quiz := { tables : Store; answers : list AnswerRow }.

(** [INSERT INTO answers (question_id, student_id, answer) VALUES (?, ?, ?)];
    whatever makes the store refuse the row is a driver error of [db.Exec]. *)
Definition submitAnswer (e : Env) (req : Bind AnswerForm) (q : Quiz)
  : Quiz * Response :=
  match req with
  | BindErr msg => (q, reply StatusBadRequest (JError msg))
  | BindOk answer =>
      if exec_fails e
      then (q, reply StatusInternalServerError (JError "Failed to submit answer"))
      else ({| tables := tables q;
               answers := answers q ++
                 [{| a_question_id := QuestionID answer;
                     a_student_id := StudentID answer;
                     a_answer := Answer answer |}] |},
            reply StatusOK (JMessage "Answer submitted successfully"))
  end.

(** What [getResult] writes: an error, or the [map[string]int] of counts. *)
Inductive ResultBody :=
| RError (msg : string)
| RCounts (result : gmap string Z).

Record ResultResponse := { result_code : Z; result_body : ResultBody }.

(** The rows [WHERE question_id = ?] selects. *)
Definition answers_of (questionID : Z) (rows : list AnswerRow) : list AnswerRow :=
  filter (λ a, a_question_id a = questionID) rows.

(** The [SELECT] of [getResult], a [COUNT] of all selected rows and
    [SUM(CASE WHEN answer = ? THEN 1 ELSE 0 END)]: the count of the
    selected rows, and the sum, which is [NULL] ([None]) over no row at all.  [same] is the store's comparison [answer = ?] of two
    texts under the collation of the column. *)
Definition tally (same : string → string → bool) (correctAnswer : string)
    (selected : list AnswerRow) : Z * option Z :=
  (Z.of_nat (length selected),
   match selected with
   | [] => None
   | _ => Some (Z.of_nat (length (filter (λ a, same (a_answer a) correctAnswer = true)
                                    selected)))
   end).

(** [getResult].  [e] is the environment of the first query and
    [tally_fails] tells whether the driver fails on the second; [Scan] of a
    [NULL] sum into [&correctCount], an [int], is an error. *)
Definition getResult (same : string → string → bool) (e : Env) (tally_fails : bool)
    (questionID : Z) (q : Quiz) : ResultResponse :=
  if exec_fails e
  then {| result_code := StatusInternalServerError;
          result_body := RError "Failed to get correct answer" |}
  else match questions (tables q) !! questionID with
       | None => {| result_code := StatusNotFound;
                    result_body := RError "Question not found" |}
       | Some row =>
           let correctAnswer := q_answer row in
           if tally_fails
           then {| result_code := StatusInternalServerError;
                   result_body := RError "Failed to get result" |}
           else match tally same correctAnswer (answers_of questionID (answers q)) with
                | (totalCount, Some correctCount) =>
                    {| result_code := StatusOK;
                       result_body :=
                         RCounts (<["correct_count" := correctCount]>
                                  (<["total_count" := totalCount]> ∅)) |}
                | (_, None) =>
                    {| result_code := StatusInternalServerError;
                       result_body := RError "Failed to get result" |}
                end
       end.

(** ** More vocabulary *)

(** The byte [c] occurs in [s]. *)
Fixpoint occurs (c : ascii) (s : string) : bool :=
  match s with
  | EmptyString => false
  | String x s' => if decide (x = c) then true else occurs c s'
  end.

(** How many times the byte [c] occurs in [s]. *)
Fixpoint count_byte (c : ascii) (s : string) : nat :=
  match s with
  | EmptyString => O
  | String x s' => if decide (x = c) then S (count_byte c s') else count_byte c s'
  end.

(** Every byte of [s] is one of [alphabet]. *)
Fixpoint all_in (alphabet s : string) : bool :=
  match s with
  | EmptyString => true
  | String x s' => occurs x alphabet && all_in alphabet s'
  end.

(** Every stored session has an identifier below the auto-increment
    counter. *)
Definition ids_below (db : Store) : Prop :=
  ∀ i, is_Some (live_sessions db !! i) → i < live_sessions_auto_increment db.

(** The row [createLiveSession] inserts. *)
Definition pending_row (courseID : Z) (streamKey : string) (now : Z) : SessionRow :=
  {| course_id := courseID; stream_key := streamKey; status := "pending";
     start_time := None; end_time := None; created_at := Some now |}.

(** The session [getLiveSession] reads from a row, before the playback
    endpoints are added. *)
Definition session_of_row (id : Z) (r : SessionRow) : LiveSession :=
  {| ID := id; CourseID := course_id r; StreamKey := stream_key r;
     Status := status r; StartTime := start_time r; EndTime := end_time r;
     CreatedAt := created_at r; PlayURLs := ∅ |}.

(** A request environment in which the driver reports no error. *)
Definition driver_ok (e : Env) : Prop :=
  exec_fails e = false ∧ result_fails e = false.

Definition session_unreadable : Response :=
  reply StatusInternalServerError (JError "Failed to get live session").

Definition invalid_stream_path : Response :=
  reply StatusBadRequest (JError "Invalid stream path").

(** The body of a status callback for the stream at [path]. *)
Definition callback_for (path event : string) : Bind Callback :=
  BindOk {| StreamPath := path; CallbackStatus := event |}.

(** A sample quiz: question 1 has the answer "B" and three submissions,
    question 2 has none. *)
Definition sample_quiz : Quiz :=
  {| tables :=
       {| live_sessions := ∅; live_sessions_auto_increment := 1;
          questions :=
            <[1 := {| q_course_id := 7; q_type := "choice"; q_content := "pick";
                      q_options := "A,B,C"; q_answer := "B" |}]>
            (<[2 := {| q_course_id := 7; q_type := "choice"; q_content := "pick";
                       q_options := "A,B"; q_answer := "A" |}]> ∅);
          questions_auto_increment := 3 |};
     answers :=
       [ {| a_question_id := 1; a_student_id := 10; a_answer := "B" |};
         {| a_question_id := 1; a_student_id := 11; a_answer := "C" |};
         {| a_question_id := 1; a_student_id := 10; a_answer := "B" |} ] |}.

(** The binary comparison of two texts. *)
Definition same_bytes (a b : string) : bool := bool_decide (a = b).

Definition e_rows_affected_fails : Env :=
  {| sql_now := 1700000005; unix := 1700000005; unix_nano := λ _, 0;
     wall := 1700000005; exec_fails := false; result_fails := true;
     rollback_fails := false; livego_post := livego_up |}.

(** The selected answers that the store finds equal to the correct one. *)
Definition correct_answers (same : string → string → bool) (correctAnswer : string)
    (selected : list AnswerRow) : list AnswerRow :=
  filter (λ a, same (a_answer a) correctAnswer = true) selected.

(** The 200 response of [getResult]. *)
Definition counts (totalCount correctCount : Z) : ResultResponse :=
  {| result_code := StatusOK;
     result_body := RCounts (<["correct_count" := correctCount]>
                             (<["total_count" := totalCount]> ∅)) |}.

Definition result_failed : ResultResponse :=
  {| result_code := StatusInternalServerError;
     result_body := RError "Failed to get result" |}.

Definition question_not_found : ResultResponse :=
  {| result_code := StatusNotFound; result_body := RError "Question not found" |}.

(** * Properties *)

(** ** The statements *)

Lemma with_live_sessions_id db :
  with_live_sessions db (live_sessions db) (live_sessions_auto_increment db) = db.
Proof. by destruct db. Qed.

Section Update.
Variables (cond : Z → SessionRow → bool) (set : SessionRow → SessionRow).

Lemma updated_lookup db i :
  live_sessions (updated cond set db) !! i
  = (λ r, if cond i r then set r else r) <$> live_sessions db !! i.
Proof.
  unfold updated; simpl. rewrite map_lookup_imap.
  by destruct (live_sessions db !! i).
Qed.

Lemma selected_zero db :
  selected cond db = 0%nat
  ↔ ∀ i r, live_sessions db !! i = Some r → cond i r = false.
Proof.
  unfold selected. rewrite map_size_empty_iff, map_empty_filter.
  unfold map_Forall; simpl. split; intros H i r Hi.
  - specialize (H i r Hi). by destruct (cond i r).
  - rewrite (H i r Hi). discriminate.
Qed.

Lemma updated_none db :
  (∀ i r, live_sessions db !! i = Some r → cond i r = false) →
  updated cond set db = db.
Proof.
  intros H. unfold updated.
  replace (map_imap _ (live_sessions db)) with (live_sessions db).
  - apply with_live_sessions_id.
  - apply map_eq; intros i. rewrite map_lookup_imap.
    destruct (live_sessions db !! i) as [r|] eqn:Hi; simpl; [|done].
    by rewrite (H i r Hi).
Qed.

(** Once the update has run, it selects nothing, provided the rewritten
    rows fall outside its condition. *)
Lemma updated_settles db :
  (∀ i r, cond i (set r) = false) →
  ∀ i r, live_sessions (updated cond set db) !! i = Some r → cond i r = false.
Proof.
  intros Hset i r. rewrite updated_lookup.
  destruct (live_sessions db !! i) as [r0|]; simpl; [|done].
  destruct (cond i r0) eqn:Hc; intros [= <-]; auto.
Qed.
End Update.

(** The guard on the primary key selects at most the row of that key. *)
Lemma updated_by_id id st set db :
  updated (where_id_status id st) set db
  = match live_sessions db !! id with
    | Some r => if decide (status r = st) then rewritten id (set r) db else db
    | None => db
    end.
Proof.
  transitivity (with_live_sessions db
                  (live_sessions (updated (where_id_status id st) set db))
                  (live_sessions_auto_increment db)); [done|].
  assert (live_sessions (updated (where_id_status id st) set db)
          = match live_sessions db !! id with
            | Some r => if decide (status r = st)
                        then <[id := set r]> (live_sessions db)
                        else live_sessions db
            | None => live_sessions db
            end) as ->.
  { apply map_eq; intros i. rewrite updated_lookup. unfold where_id_status.
    destruct (decide (i = id)) as [->|Hne].
    - rewrite bool_decide_eq_true_2 by done. simpl.
      destruct (live_sessions db !! id) as [r|] eqn:Hid; simpl.
      + destruct (decide (status r = st)).
        * rewrite bool_decide_eq_true_2 by done. by rewrite lookup_insert_eq.
        * rewrite bool_decide_eq_false_2 by done. by rewrite Hid.
      + by rewrite Hid.
    - rewrite bool_decide_eq_false_2 by done. simpl.
      destruct (live_sessions db !! id) as [r|] eqn:Hid.
      + destruct (decide (status r = st)).
        * rewrite lookup_insert_ne by done. by destruct (live_sessions db !! i).
        * by destruct (live_sessions db !! i).
      + by destruct (live_sessions db !! i). }
  destruct (live_sessions db !! id) as [r|]; [|apply with_live_sessions_id].
  destruct (decide (status r = st)); [done|apply with_live_sessions_id].
Qed.

Lemma selected_by_id id st db :
  selected (where_id_status id st) db
  = match live_sessions db !! id with
    | Some r => if decide (status r = st) then 1%nat else 0%nat
    | None => 0%nat
    end.
Proof.
  assert (Hzero : (¬ ∃ r, live_sessions db !! id = Some r ∧ status r = st) →
                  selected (where_id_status id st) db = 0%nat).
  { intros H. apply selected_zero. intros i r Hi. unfold where_id_status.
    apply andb_false_iff.
    destruct (decide (i = id)) as [->|]; [|left; by apply bool_decide_eq_false_2].
    right. apply bool_decide_eq_false_2. intros Hst. apply H. eauto. }
  destruct (live_sessions db !! id) as [r|] eqn:Hid.
  - destruct (decide (status r = st)) as [Hst|Hst].
    + unfold selected.
      replace (filter _ (live_sessions db)) with ({[id := r]} : gmap Z SessionRow).
      { apply map_size_singleton. }
      apply map_eq; intros i. symmetry.
      destruct (decide (i = id)) as [->|Hne].
      * rewrite lookup_singleton_eq. apply map_lookup_filter_Some. split; [done|].
        simpl. unfold where_id_status. by rewrite !bool_decide_eq_true_2.
      * rewrite lookup_singleton_ne by done. apply map_lookup_filter_None.
        right. intros x _. simpl. unfold where_id_status.
        rewrite (bool_decide_eq_false_2 (i = id)) by done. simpl. discriminate.
    + apply Hzero. intros (r' & [= <-] & ?). done.
  - apply Hzero. intros (r' & [=] & ?).
Qed.

(** [db.Exec] of a guarded update by primary key. *)
Lemma exec_update_by_id id st set db :
  Exec false (update_live_sessions (where_id_status id st) set) db
  = match live_sessions db !! id with
    | Some r =>
        if decide (status r = st)
        then (rewritten id (set r) db,
              Some {| last_insert_id := 0; rows_affected := 1 |})
        else (db, Some {| last_insert_id := 0; rows_affected := 0 |})
    | None => (db, Some {| last_insert_id := 0; rows_affected := 0 |})
    end.
Proof.
  unfold Exec, update_live_sessions.
  rewrite updated_by_id, selected_by_id.
  destruct (live_sessions db !! id) as [r|]; [|done].
  by destruct (decide (status r = st)).
Qed.

(** What [startLiveSession] and [endLiveSession] do when the driver reports
    no error. *)
Lemma startLiveSession_spec e id db :
  exec_fails e = false → result_fails e = false →
  startLiveSession e id db
  = match live_sessions db !! id with
    | Some r => if decide (status r = "pending")
                then (rewritten id (set_live (sql_now e) r) db, start_ok)
                else (db, start_refused)
    | None => (db, start_refused)
    end.
Proof.
  intros He Hr. unfold startLiveSession, start_statement. rewrite He.
  rewrite exec_update_by_id.
  destruct (live_sessions db !! id) as [r|];
    [destruct (decide (status r = "pending"))|];
    unfold start_reply, RowsAffected; rewrite Hr; done.
Qed.

Lemma endLiveSession_spec e id db :
  exec_fails e = false → result_fails e = false →
  endLiveSession e id db
  = match live_sessions db !! id with
    | Some r => if decide (status r = "live")
                then (rewritten id (set_ended (sql_now e) r) db, end_ok)
                else (db, end_refused)
    | None => (db, end_refused)
    end.
Proof.
  intros He Hr. unfold endLiveSession, end_statement. rewrite He.
  rewrite exec_update_by_id.
  destruct (live_sessions db !! id) as [r|];
    [destruct (decide (status r = "live"))|];
    unfold end_reply, RowsAffected; rewrite Hr; done.
Qed.

(** ** Start and End are guarded by the current status *)

(** C2.  When the driver reports no error, [startLiveSession] answers 200
    exactly when a session with that identifier exists and is [pending]; it
    then makes the session [live] and stamps its start time with [NOW()].
    In every other case, whether the identifier is unknown or the session
    is in another state, the store is left as it was and the answer is the
    one and the same 400 response.  [endLiveSession] is the mirror image
    on [live]. *)
Theorem start_succeeds_iff_pending e id db :
  exec_fails e = false → result_fails e = false →
  ((startLiveSession e id db).2 = start_ok
   ↔ ∃ r, live_sessions db !! id = Some r ∧ status r = "pending")
  ∧ (∀ r, live_sessions db !! id = Some r → status r = "pending" →
       ∃ r', live_sessions (startLiveSession e id db).1 !! id = Some r'
             ∧ status r' = "live" ∧ start_time r' = Some (sql_now e))
  ∧ ((¬ ∃ r, live_sessions db !! id = Some r ∧ status r = "pending") →
       startLiveSession e id db = (db, start_refused))
  ∧ ((endLiveSession e id db).2 = end_ok
     ↔ ∃ r, live_sessions db !! id = Some r ∧ status r = "live")
  ∧ ((¬ ∃ r, live_sessions db !! id = Some r ∧ status r = "live") →
       endLiveSession e id db = (db, end_refused)).
Proof.
  intros He Hr.
  rewrite (startLiveSession_spec e id db He Hr), (endLiveSession_spec e id db He Hr).
  destruct (live_sessions db !! id) as [r|] eqn:Hid.
  - repeat split.
    + destruct (decide (status r = "pending")); [eauto|discriminate].
    + intros (r0 & [= <-] & Hst). by rewrite decide_True.
    + intros r0 [= <-] Hst. rewrite decide_True by done.
      exists (set_live (sql_now e) r). simpl. by rewrite lookup_insert_eq.
    + intros Hno. destruct (decide (status r = "pending")); [|done].
      exfalso. apply Hno. eauto.
    + destruct (decide (status r = "live")); [eauto|discriminate].
    + intros (r0 & [= <-] & Hst). by rewrite decide_True.
    + intros Hno. destruct (decide (status r = "live")); [|done].
      exfalso. apply Hno. eauto.
  - repeat split; try done.
    + intros (r0 & [=] & _).
    + intros (r0 & [=] & _).
Qed.

Lemma start_succeeds_iff_pending_witness :
  (startLiveSession e1 1 sample_store).2 = start_ok
  ∧ startLiveSession e1 2 sample_store = (sample_store, start_refused)
  ∧ startLiveSession e1 7 sample_store = (sample_store, start_refused).
Proof.
  split; [|split].
  - apply (start_succeeds_iff_pending e1 1 sample_store eq_refl eq_refl).
    exists (sample_row "pending" None None). split; reflexivity.
  - apply (start_succeeds_iff_pending e1 2 sample_store eq_refl eq_refl).
    intros (r & Hr & Hst). vm_compute in Hr. injection Hr as <-. discriminate.
  - apply (start_succeeds_iff_pending e1 7 sample_store eq_refl eq_refl).
    intros (r & Hr & Hst). vm_compute in Hr. discriminate.
Defined.

(** ** What one request does to one stored session *)

Lemma set_live_moves now r : status r = "pending" → row_moves now r (set_live now r).
Proof. intros. right; left. done. Qed.

Lemma set_ended_moves now r : status r = "live" → row_moves now r (set_ended now r).
Proof. intros. right; right. done. Qed.

(** A guarded update, executed or not, moves every row along the life
    cycle and neither adds nor removes one. *)
Lemma exec_update_row now fails cond set db i :
  (∀ k r, cond k r = true → row_moves now r (set r)) →
  match live_sessions db !! i with
  | Some r =>
      ∃ r', live_sessions (Exec fails (update_live_sessions cond set) db).1 !! i
            = Some r' ∧ row_moves now r r'
  | None =>
      live_sessions (Exec fails (update_live_sessions cond set) db).1 !! i = None
  end.
Proof.
  intros Hset. unfold Exec, update_live_sessions.
  destruct fails; simpl.
  - destruct (live_sessions db !! i) as [r|] eqn:Hi; [|done].
    exists r. split; [done|by left].
  - pose proof (updated_lookup cond set db i) as Hl. unfold updated in Hl.
    simpl in Hl. rewrite Hl.
    destruct (live_sessions db !! i) as [r|] eqn:Hi; [|done]. simpl.
    destruct (cond i r) eqn:Hc; eexists; (split; [done|]).
    + eapply Hset, Hc.
    + by left.
Qed.

Lemma exec_update_rest fails cond set db :
  live_sessions_auto_increment (Exec fails (update_live_sessions cond set) db).1
  = live_sessions_auto_increment db
  ∧ questions (Exec fails (update_live_sessions cond set) db).1 = questions db
  ∧ questions_auto_increment (Exec fails (update_live_sessions cond set) db).1
    = questions_auto_increment db.
Proof. unfold Exec, update_live_sessions. by destruct fails. Qed.

Lemma where_id_pending_moves now id k r :
  where_id_status id "pending" k r = true → row_moves now r (set_live now r).
Proof.
  unfold where_id_status. intros [_ H]%andb_true_iff.
  apply set_live_moves. by apply bool_decide_eq_true in H.
Qed.

Lemma where_id_live_moves now id k r :
  where_id_status id "live" k r = true → row_moves now r (set_ended now r).
Proof.
  unfold where_id_status. intros [_ H]%andb_true_iff.
  apply set_ended_moves. by apply bool_decide_eq_true in H.
Qed.

Lemma where_key_pending_moves now key k r :
  where_stream_key_status key "pending" k r = true → row_moves now r (set_live now r).
Proof.
  unfold where_stream_key_status. intros [_ H]%andb_true_iff.
  apply set_live_moves. by apply bool_decide_eq_true in H.
Qed.

Lemma where_key_live_moves now key k r :
  where_stream_key_status key "live" k r = true → row_moves now r (set_ended now r).
Proof.
  unfold where_stream_key_status. intros [_ H]%andb_true_iff.
  apply set_ended_moves. by apply bool_decide_eq_true in H.
Qed.

(** The three things [createLiveSession] can do to the table: nothing,
    insert a [pending] row under the next, unused identifier, or insert it
    and delete it again. *)
Lemma createLiveSession_store cfg e req db :
  (createLiveSession cfg e req db).1 = db
  ∨ (live_sessions db !! live_sessions_auto_increment db = None
     ∧ ((∃ r, fresh_row r
              ∧ (createLiveSession cfg e req db).1
                = with_live_sessions db
                    (<[live_sessions_auto_increment db := r]> (live_sessions db))
                    (live_sessions_auto_increment db + 1))
        ∨ (createLiveSession cfg e req db).1
          = with_live_sessions db (live_sessions db)
              (live_sessions_auto_increment db + 1))).
Proof.
  destruct (createLiveSession cfg e req db) as [db' resp] eqn:HC. simpl.
  unfold createLiveSession in HC.
  destruct req as [msg|courseID]; [left; congruence|].
  destruct (generateStreamKey e) as [streamKey|]; [|left; congruence].
  unfold Exec at 1, insert_live_session in HC.
  destruct (exec_fails e); [left; congruence|]. cbv beta zeta in HC.
  destruct (live_sessions db !! live_sessions_auto_increment db) eqn:Hfree;
    [left; congruence|].
  right. split; [done|].
  unfold LastInsertId in HC. destruct (result_fails e); simpl in HC.
  { left. eexists. split; [|by injection HC as <- _]. done. }
  destruct (createStreamInLivego cfg e streamKey).
  - unfold Exec, delete_live_session in HC. destruct (rollback_fails e); simpl in HC.
    + left. eexists. split; [|by injection HC as <- _]. done.
    + right. injection HC as <- _.
      unfold with_live_sessions; simpl. by rewrite delete_insert_id.
  - left. eexists. split; [|by injection HC as <- _]. done.
Qed.

Lemma createQuestion_live_sessions e req db :
  live_sessions (createQuestion e req db).1 = live_sessions db.
Proof.
  unfold createQuestion. destruct req as [msg|q]; [done|].
  unfold Exec, insert_question. destruct (exec_fails e); [done|]. cbv beta zeta.
  destruct (questions db !! questions_auto_increment db); [done|].
  unfold LastInsertId. by destruct (result_fails e).
Qed.

(** One request, whatever it is and whatever the driver does, moves every
    stored session along the life cycle, removes none, and adds at most
    rows of the shape [fresh_row]. *)
Lemma initRouter_row cfg e req db i :
  match live_sessions db !! i with
  | Some r =>
      ∃ r', live_sessions (initRouter cfg e req db).1 !! i = Some r'
            ∧ row_moves (sql_now e) r r'
  | None =>
      ∀ r', live_sessions (initRouter cfg e req db).1 !! i = Some r' → fresh_row r'
  end.
Proof.
  assert (Hsame : ∀ db', live_sessions db' = live_sessions db →
    match live_sessions db !! i with
    | Some r => ∃ r', live_sessions db' !! i = Some r' ∧ row_moves (sql_now e) r r'
    | None => ∀ r', live_sessions db' !! i = Some r' → fresh_row r'
    end).
  { intros db' ->. destruct (live_sessions db !! i) as [r|] eqn:Hi.
    - exists r. split; [done|by left].
    - intros r' [=]. }
  assert (Hupd : ∀ cond set fails,
    (∀ k r, cond k r = true → row_moves (sql_now e) r (set r)) →
    match live_sessions db !! i with
    | Some r =>
        ∃ r', live_sessions (Exec fails (update_live_sessions cond set) db).1 !! i
              = Some r' ∧ row_moves (sql_now e) r r'
    | None =>
        ∀ r', live_sessions (Exec fails (update_live_sessions cond set) db).1 !! i
              = Some r' → fresh_row r'
    end).
  { intros cond set fails Hset.
    pose proof (exec_update_row (sql_now e) fails cond set db i Hset) as H.
    destruct (live_sessions db !! i); [done|]. intros r'. by rewrite H. }
  destruct req as [req|id|id|id|req|req|c q]; simpl.
  - destruct (createLiveSession_store cfg e req db) as [->|[Hfree [(r0 & Hr0 & ->)| ->]]];
      [by apply Hsame| |by apply Hsame].
    simpl. destruct (decide (i = live_sessions_auto_increment db)) as [->|Hne].
    + rewrite Hfree. intros r'. rewrite lookup_insert_eq. by intros [= <-].
    + rewrite lookup_insert_ne by done.
      destruct (live_sessions db !! i) as [r|] eqn:Hi.
      * exists r. split; [done|by left].
      * intros r' [=].
  - by apply Hsame.
  - unfold startLiveSession.
    destruct (Exec (exec_fails e) (start_statement e id) db) as [db' res] eqn:HE.
    simpl. change db' with (db', res).1. rewrite <- HE.
    apply Hupd. intros k r Hc. eapply where_id_pending_moves, Hc.
  - unfold endLiveSession.
    destruct (Exec (exec_fails e) (end_statement e id) db) as [db' res] eqn:HE.
    simpl. change db' with (db', res).1. rewrite <- HE.
    apply Hupd. intros k r Hc. eapply where_id_live_moves, Hc.
  - unfold handleLiveStatusCallback. destruct req as [msg|cb]; [by apply Hsame|].
    destruct (Split (StreamPath cb) slash !! 2%nat) as [key|]; [|by apply Hsame].
    simpl. destruct (decide (CallbackStatus cb = "start")).
    { apply Hupd. intros k r Hc. eapply where_key_pending_moves, Hc. }
    destruct (decide (CallbackStatus cb = "stop")).
    { apply Hupd. intros k r Hc. eapply where_key_live_moves, Hc. }
    by apply Hsame.
  - apply Hsame. apply createQuestion_live_sessions.
  - by apply Hsame.
Qed.

(** ** The life cycle *)

Lemma row_moves_status now r r' :
  row_moves now r r' → status r' = status r ∨ transition (status r) (status r').
Proof.
  intros [->|[[Hst ->]|[Hst ->]]]; [by left| |]; right; rewrite Hst; constructor.
Qed.

Lemma row_moves_rtc now r r' :
  row_moves now r r' → rtc transition (status r) (status r').
Proof.
  intros [->|H]%row_moves_status; [done|by apply rtc_once].
Qed.

Lemma row_moves_ended now r r' : status r = "ended" → row_moves now r r' → r' = r.
Proof. intros Hst [->|[[H _]|[H _]]]; [done| |]; congruence. Qed.

Lemma transition_from_pending s : rtc transition "pending" s →
  s = "pending" ∨ s = "live" ∨ s = "ended".
Proof.
  intros H. inversion H as [|? s1 ? H1 H2]; subst; [by left|].
  inversion H1; subst.
  inversion H2 as [|? s2 ? H3 H4]; subst; [by right; left|].
  inversion H3; subst.
  inversion H4 as [|? s3 ? H5 H6]; subst; [by right; right|].
  inversion H5.
Qed.

Lemma serve_row cfg reqs : ∀ db i r,
  live_sessions db !! i = Some r →
  ∃ r', live_sessions (serve cfg reqs db) !! i = Some r'
        ∧ rtc transition (status r) (status r').
Proof.
  induction reqs as [|[e req] reqs IH]; intros db i r Hi; simpl.
  - by exists r.
  - pose proof (initRouter_row cfg e req db i) as Hstep. rewrite Hi in Hstep.
    destruct Hstep as (r1 & H1 & Hmove).
    destruct (IH _ _ _ H1) as (r' & Hr' & Hrtc).
    exists r'. split; [done|].
    etrans; [by eapply row_moves_rtc|done].
Qed.

Lemma serve_new cfg reqs : ∀ db i r',
  live_sessions db !! i = None →
  live_sessions (serve cfg reqs db) !! i = Some r' →
  rtc transition "pending" (status r').
Proof.
  induction reqs as [|[e req] reqs IH]; intros db i r' Hi; simpl.
  - by rewrite Hi.
  - pose proof (initRouter_row cfg e req db i) as Hstep. rewrite Hi in Hstep.
    destruct (live_sessions (initRouter cfg e req db).1 !! i) as [r1|] eqn:H1.
    + destruct (Hstep r1 eq_refl) as (Hst & _). rewrite <- Hst.
      intros Hr'. destruct (serve_row cfg reqs _ _ _ H1) as (r2 & Hr2 & Hrtc).
      congruence.
    + by apply IH.
Qed.

Lemma serve_ended cfg reqs : ∀ db i r,
  live_sessions db !! i = Some r → status r = "ended" →
  live_sessions (serve cfg reqs db) !! i = Some r.
Proof.
  induction reqs as [|[e req] reqs IH]; intros db i r Hi Hst; simpl; [done|].
  pose proof (initRouter_row cfg e req db i) as Hstep. rewrite Hi in Hstep.
  destruct Hstep as (r1 & H1 & Hmove).
  apply (row_moves_ended _ _ _ Hst) in Hmove as ->. by apply IH.
Qed.

(** C3.  Over every sequence of requests, whatever the driver does, the
    status of a stored session moves only along [pending → live → ended]:
    a session that exists keeps existing and its later status is reached
    from the earlier one by life-cycle transitions; a session that appears
    starts from [pending]; an [ended] session is never changed again; and
    no single request, End and the stop callback included, takes a
    [pending] session to [ended]. *)
Theorem status_follows_lifecycle cfg reqs db i :
  (∀ r, live_sessions db !! i = Some r →
     ∃ r', live_sessions (serve cfg reqs db) !! i = Some r'
           ∧ rtc transition (status r) (status r'))
  ∧ (live_sessions db !! i = None →
     ∀ r', live_sessions (serve cfg reqs db) !! i = Some r' →
           rtc transition "pending" (status r'))
  ∧ (∀ r, live_sessions db !! i = Some r → status r = "ended" →
     live_sessions (serve cfg reqs db) !! i = Some r)
  ∧ (∀ e req r', live_sessions db !! i = None →
     live_sessions (initRouter cfg e req db).1 !! i = Some r' →
     status r' = "pending")
  ∧ (∀ e req r r', live_sessions db !! i = Some r → status r = "pending" →
     live_sessions (initRouter cfg e req db).1 !! i = Some r' →
     status r' = "pending" ∨ status r' = "live").
Proof.
  split; [|split; [|split; [|split]]].
  - intros r. apply serve_row.
  - intros Hi r'. by apply serve_new.
  - intros r. apply serve_ended.
  - intros e req r' Hi Hr'.
    pose proof (initRouter_row cfg e req db i) as Hstep. rewrite Hi in Hstep.
    by destruct (Hstep r' Hr').
  - intros e req r r' Hi Hst Hr'.
    pose proof (initRouter_row cfg e req db i) as Hstep. rewrite Hi in Hstep.
    destruct Hstep as (r1 & H1 & Hmove).
    assert (r1 = r') as -> by congruence.
    destruct Hmove as [->|[[_ ->]|[Hl _]]]; [by left|by right|congruence].
Qed.

Lemma status_follows_lifecycle_witness :
  live_sessions (serve cfg0 sample_requests sample_store) !! 3
  = Some (sample_row "ended" (Some 1700000100) (Some 1700000200))
  ∧ ∀ r', live_sessions (initRouter cfg0 e1 (PostLiveSessionEnd 1) sample_store).1 !! 1
          = Some r' → status r' = "pending" ∨ status r' = "live".
Proof.
  pose proof (status_follows_lifecycle cfg0 sample_requests sample_store 3)
    as (_ & _ & Hended & _).
  pose proof (status_follows_lifecycle cfg0 [] sample_store 1)
    as (_ & _ & _ & _ & Hpending).
  split.
  - apply Hended; reflexivity.
  - intros r'. apply (Hpending e1 (PostLiveSessionEnd 1)
                        (sample_row "pending" None None)); reflexivity.
Defined.

(** ** Frame of Start and End *)

Lemma start_reply_ok e res :
  start_reply e res = start_ok →
  result_fails e = false ∧ ∃ result, res = Some result ∧ rows_affected result ≠ 0.
Proof.
  unfold start_reply, RowsAffected. destruct res as [result|]; [|discriminate].
  destruct (result_fails e); [discriminate|].
  destruct (decide (rows_affected result = 0)); [discriminate|]. eauto.
Qed.

Lemma end_reply_ok e res :
  end_reply e res = end_ok →
  result_fails e = false ∧ ∃ result, res = Some result ∧ rows_affected result ≠ 0.
Proof.
  unfold end_reply, RowsAffected. destruct res as [result|]; [|discriminate].
  destruct (result_fails e); [discriminate|].
  destruct (decide (rows_affected result = 0)); [discriminate|]. eauto.
Qed.

Lemma startLiveSession_ok e id db :
  (startLiveSession e id db).2 = start_ok →
  ∃ r, live_sessions db !! id = Some r ∧ status r = "pending"
       ∧ (startLiveSession e id db).1 = rewritten id (set_live (sql_now e) r) db.
Proof.
  intros Hok. assert (exec_fails e = false ∧ result_fails e = false) as [He Hr].
  { unfold startLiveSession in Hok.
    destruct (Exec _ _ db) as [db' res] eqn:HE. simpl in Hok.
    apply start_reply_ok in Hok as (Hr & result & -> & _). split; [|done].
    unfold Exec in HE. by destruct (exec_fails e). }
  rewrite (startLiveSession_spec e id db He Hr) in *.
  destruct (live_sessions db !! id) as [r|]; [|discriminate].
  destruct (decide (status r = "pending")); [eauto|discriminate].
Qed.

Lemma endLiveSession_ok e id db :
  (endLiveSession e id db).2 = end_ok →
  ∃ r, live_sessions db !! id = Some r ∧ status r = "live"
       ∧ (endLiveSession e id db).1 = rewritten id (set_ended (sql_now e) r) db.
Proof.
  intros Hok. assert (exec_fails e = false ∧ result_fails e = false) as [He Hr].
  { unfold endLiveSession in Hok.
    destruct (Exec _ _ db) as [db' res] eqn:HE. simpl in Hok.
    apply end_reply_ok in Hok as (Hr & result & -> & _). split; [|done].
    unfold Exec in HE. by destruct (exec_fails e). }
  rewrite (endLiveSession_spec e id db He Hr) in *.
  destruct (live_sessions db !! id) as [r|]; [|discriminate].
  destruct (decide (status r = "live")); [eauto|discriminate].
Qed.

(** C9.  A Start that answers 200 rewrites the row of that identifier and
    nothing else in the store, and in that row only the status and the
    start time; an End that answers 200 likewise touches only the status
    and the end time.  Under any request at all, the course, the stream key
    and the creation time of a stored session stay as they are, its start
    time changes only in the step that takes it from [pending] to [live]
    and its end time only in the step from [live] to [ended]. *)
Theorem start_end_frame cfg e id db :
  ((startLiveSession e id db).2 = start_ok →
     ∃ r r', live_sessions db !! id = Some r
       ∧ (startLiveSession e id db).1 = rewritten id r' db
       ∧ status r' = "live" ∧ start_time r' = Some (sql_now e)
       ∧ course_id r' = course_id r ∧ stream_key r' = stream_key r
       ∧ created_at r' = created_at r ∧ end_time r' = end_time r)
  ∧ ((endLiveSession e id db).2 = end_ok →
     ∃ r r', live_sessions db !! id = Some r
       ∧ (endLiveSession e id db).1 = rewritten id r' db
       ∧ status r' = "ended" ∧ end_time r' = Some (sql_now e)
       ∧ course_id r' = course_id r ∧ stream_key r' = stream_key r
       ∧ created_at r' = created_at r ∧ start_time r' = start_time r)
  ∧ (∀ req i r r', live_sessions db !! i = Some r →
     live_sessions (initRouter cfg e req db).1 !! i = Some r' →
     course_id r' = course_id r ∧ stream_key r' = stream_key r
     ∧ created_at r' = created_at r
     ∧ (start_time r' = start_time r
        ∨ (status r = "pending" ∧ status r' = "live"
           ∧ start_time r' = Some (sql_now e)))
     ∧ (end_time r' = end_time r
        ∨ (status r = "live" ∧ status r' = "ended"
           ∧ end_time r' = Some (sql_now e)))).
Proof.
  split; [|split].
  - intros (r & Hr & Hst & Hdb)%startLiveSession_ok.
    exists r, (set_live (sql_now e) r). by repeat split.
  - intros (r & Hr & Hst & Hdb)%endLiveSession_ok.
    exists r, (set_ended (sql_now e) r). by repeat split.
  - intros req i r r' Hi Hr'.
    pose proof (initRouter_row cfg e req db i) as Hstep. rewrite Hi in Hstep.
    destruct Hstep as (r1 & H1 & Hmove).
    assert (r1 = r') as -> by congruence.
    destruct Hmove as [->|[[Hst ->]|[Hst ->]]]; simpl; repeat split; auto.
Qed.

Lemma start_end_frame_witness :
  (∃ r r', live_sessions sample_store !! 1 = Some r
     ∧ (startLiveSession e1 1 sample_store).1 = rewritten 1 r' sample_store
     ∧ status r' = "live" ∧ start_time r' = Some (sql_now e1)
     ∧ course_id r' = course_id r ∧ stream_key r' = stream_key r
     ∧ created_at r' = created_at r ∧ end_time r' = end_time r)
  ∧ (∃ r r', live_sessions sample_store !! 2 = Some r
     ∧ (endLiveSession e1 2 sample_store).1 = rewritten 2 r' sample_store
     ∧ status r' = "ended" ∧ end_time r' = Some (sql_now e1)
     ∧ course_id r' = course_id r ∧ stream_key r' = stream_key r
     ∧ created_at r' = created_at r ∧ start_time r' = start_time r).
Proof.
  split.
  - apply (start_end_frame cfg0 e1 1 sample_store). vm_compute. reflexivity.
  - apply (start_end_frame cfg0 e1 2 sample_store). vm_compute. reflexivity.
Defined.

(** ** The status callback *)

Lemma where_key_settles_live key now i r :
  where_stream_key_status key "pending" i (set_live now r) = false.
Proof.
  unfold where_stream_key_status. apply andb_false_iff. right.
  by apply bool_decide_eq_false_2.
Qed.

Lemma where_key_settles_ended key now i r :
  where_stream_key_status key "live" i (set_ended now r) = false.
Proof.
  unfold where_stream_key_status. apply andb_false_iff. right.
  by apply bool_decide_eq_false_2.
Qed.

Lemma where_key_none key st db :
  (¬ ∃ i r, live_sessions db !! i = Some r ∧ stream_key r = key ∧ status r = st) →
  ∀ i r, live_sessions db !! i = Some r → where_stream_key_status key st i r = false.
Proof.
  intros H i r Hi. unfold where_stream_key_status.
  destruct (decide (stream_key r = key)) as [Hk|Hk];
    [|by rewrite (bool_decide_eq_false_2 _ Hk)].
  destruct (decide (status r = st)) as [Hs|Hs];
    [|rewrite (bool_decide_eq_false_2 _ Hs); apply andb_false_r].
  exfalso. apply H. eauto.
Qed.

Lemma exec_update_none fails cond set db :
  (∀ i r, live_sessions db !! i = Some r → cond i r = false) →
  (Exec fails (update_live_sessions cond set) db).1 = db.
Proof.
  intros H. unfold Exec, update_live_sessions. destruct fails; [done|].
  simpl. by apply updated_none.
Qed.

(** C5.  A callback whose path carries a stream key always answers the
    200 acknowledgement, whatever the driver does.  When no session has
    that stream key, or none of those that have it is in the state the
    event requires ([pending] for start, [live] for stop), the store is
    left exactly as it was; an event other than start and stop never
    touches it.  Delivering again a callback that the store has executed
    changes nothing more. *)
Theorem callback_unmatched_is_noop e callback key db :
  Split (StreamPath callback) slash !! 2%nat = Some key →
  (handleLiveStatusCallback e (BindOk callback) db).2 = callback_ack
  ∧ (CallbackStatus callback = "start" →
     (¬ ∃ i r, live_sessions db !! i = Some r
               ∧ stream_key r = key ∧ status r = "pending") →
     handleLiveStatusCallback e (BindOk callback) db = (db, callback_ack))
  ∧ (CallbackStatus callback = "stop" →
     (¬ ∃ i r, live_sessions db !! i = Some r
               ∧ stream_key r = key ∧ status r = "live") →
     handleLiveStatusCallback e (BindOk callback) db = (db, callback_ack))
  ∧ (CallbackStatus callback ≠ "start" → CallbackStatus callback ≠ "stop" →
     handleLiveStatusCallback e (BindOk callback) db = (db, callback_ack))
  ∧ (∀ e', exec_fails e = false →
     handleLiveStatusCallback e' (BindOk callback)
       (handleLiveStatusCallback e (BindOk callback) db).1
     = ((handleLiveStatusCallback e (BindOk callback) db).1, callback_ack)).
Proof.
  intros Hkey. unfold handleLiveStatusCallback. rewrite Hkey. simpl.
  split; [done|]. split; [|split; [|split]].
  - intros Hstart Hno. rewrite decide_True by done.
    unfold callback_start_statement.
    by rewrite exec_update_none by by apply where_key_none.
  - intros Hstop Hno. rewrite decide_False by (rewrite Hstop; discriminate).
    rewrite decide_True by done. unfold callback_stop_statement.
    by rewrite exec_update_none by by apply where_key_none.
  - intros H1 H2. by rewrite !decide_False by done.
  - intros e' He. rewrite He.
    destruct (decide (CallbackStatus callback = "start")).
    { f_equal. apply exec_update_none.
      unfold Exec, callback_start_statement, update_live_sessions. simpl.
      apply updated_settles. apply where_key_settles_live. }
    destruct (decide (CallbackStatus callback = "stop")); [|done].
    f_equal. apply exec_update_none.
    unfold Exec, callback_stop_statement, update_live_sessions. simpl.
    apply updated_settles. apply where_key_settles_ended.
Qed.

Lemma sample_store_ids i r :
  live_sessions sample_store !! i = Some r →
  (i = 1 ∧ r = sample_row "pending" None None)
  ∨ (i = 2 ∧ r = sample_row "live" (Some 1700000100) None)
  ∨ (i = 3 ∧ r = sample_row "ended" (Some 1700000100) (Some 1700000200)).
Proof.
  unfold sample_store; simpl. intros Hi.
  apply lookup_insert_Some in Hi as [[<- <-]|[_ Hi]]; [by left|].
  apply lookup_insert_Some in Hi as [[<- <-]|[_ Hi]]; [by right; left|].
  apply lookup_insert_Some in Hi as [[<- <-]|[_ Hi]]; [by right; right|].
  by rewrite lookup_empty in Hi.
Qed.

Lemma callback_unmatched_is_noop_witness :
  handleLiveStatusCallback e1
    (BindOk {| StreamPath := "/live/unknown"; CallbackStatus := "start" |})
    sample_store
  = (sample_store, callback_ack)
  ∧ handleLiveStatusCallback e1
      (BindOk {| StreamPath := "/live/live_1700000000_ended";
                 CallbackStatus := "stop" |})
      sample_store
    = (sample_store, callback_ack).
Proof.
  split.
  - destruct (callback_unmatched_is_noop e1
                {| StreamPath := "/live/unknown"; CallbackStatus := "start" |}
                "unknown" sample_store eq_refl) as (_ & Hstart & _).
    apply Hstart; [reflexivity|].
    intros (i & r & Hi & Hkey & Hst).
    apply sample_store_ids in Hi as [[_ ->]|[[_ ->]|[_ ->]]]; discriminate.
  - destruct (callback_unmatched_is_noop e1
                {| StreamPath := "/live/live_1700000000_ended";
                   CallbackStatus := "stop" |}
                "live_1700000000_ended" sample_store eq_refl) as (_ & _ & Hstop & _).
    apply Hstop; [reflexivity|].
    intros (i & r & Hi & Hkey & Hst).
    apply sample_store_ids in Hi as [[_ ->]|[[_ ->]|[_ ->]]]; discriminate.
Defined.

(** ** Create and its compensation *)

(** C4.  When the driver reports no error, the stream key is generated,
    the store accepts the insert and the provisioning call to Livego fails,
    Create answers the provisioning failure.  Whenever Create answers the
    provisioning failure and the compensating delete is executed, the
    table of sessions is exactly what it was before the request, and Get on
    the identifier the insert had allocated answers not-found. *)
Theorem create_rolls_back_on_provisioning_failure cfg e courseID db :
  (∀ streamKey, exec_fails e = false → result_fails e = false →
     generateStreamKey e = Some streamKey →
     live_sessions db !! live_sessions_auto_increment db = None →
     createStreamInLivego cfg e streamKey ≠ None →
     (createLiveSession cfg e (BindOk courseID) db).2 = provisioning_failed)
  ∧ ((createLiveSession cfg e (BindOk courseID) db).2 = provisioning_failed →
     rollback_fails e = false →
     live_sessions (createLiveSession cfg e (BindOk courseID) db).1
     = live_sessions db
     ∧ live_sessions db !! live_sessions_auto_increment db = None
     ∧ ∀ e', exec_fails e' = false →
         getLiveSession cfg e' (live_sessions_auto_increment db)
           (createLiveSession cfg e (BindOk courseID) db).1
         = session_not_found).
Proof.
  split.
  - intros streamKey He Hr Hkey Hfree Hlivego.
    unfold createLiveSession. rewrite Hkey.
    unfold Exec at 1, insert_live_session. rewrite He. cbv beta zeta.
    rewrite Hfree. unfold LastInsertId. rewrite Hr. simpl.
    by destruct (createStreamInLivego cfg e streamKey).
  - intros Hresp Hroll.
    destruct (createLiveSession cfg e (BindOk courseID) db) as [db' resp] eqn:HC.
    simpl in *. subst resp. unfold createLiveSession in HC.
    destruct (generateStreamKey e) as [streamKey|]; [|discriminate].
    unfold Exec at 1, insert_live_session in HC.
    destruct (exec_fails e); [discriminate|]. cbv beta zeta in HC.
    destruct (live_sessions db !! live_sessions_auto_increment db) eqn:Hfree;
      [discriminate|].
    unfold LastInsertId in HC. destruct (result_fails e); [discriminate|].
    simpl in HC.
    destruct (createStreamInLivego cfg e streamKey); [|discriminate].
    unfold Exec, delete_live_session in HC. rewrite Hroll in HC. simpl in HC.
    injection HC as <-. simpl. rewrite delete_insert_id by done.
    split; [done|]. split; [done|].
    intros e' He'. unfold getLiveSession, select_live_session. rewrite He'.
    simpl. by rewrite Hfree.
Qed.

Lemma create_rolls_back_on_provisioning_failure_witness :
  (createLiveSession cfg0 e_livego_down (BindOk 42) sample_store).2
  = provisioning_failed
  ∧ live_sessions (createLiveSession cfg0 e_livego_down (BindOk 42) sample_store).1
    = live_sessions sample_store
  ∧ getLiveSession cfg0 e1 4
      (createLiveSession cfg0 e_livego_down (BindOk 42) sample_store).1
    = session_not_found.
Proof.
  destruct (create_rolls_back_on_provisioning_failure
              cfg0 e_livego_down 42 sample_store) as [Hfails Hback].
  assert (Hresp : (createLiveSession cfg0 e_livego_down (BindOk 42) sample_store).2
                  = provisioning_failed).
  { apply (Hfails "live_1700000000_AAAAAAAAAA"); try reflexivity.
    vm_compute. discriminate. }
  destruct (Hback Hresp eq_refl) as (Htable & _ & Hget).
  split; [exact Hresp|]. split; [exact Htable|]. apply (Hget e1). reflexivity.
Defined.

(** The compensation is only attempted: the result of the [DELETE] is
    dropped, so when the driver fails on it the [pending] row stays and Get
    finds it. *)
Lemma create_rollback_not_executed cfg e courseID streamKey db :
  exec_fails e = false → result_fails e = false → rollback_fails e = true →
  generateStreamKey e = Some streamKey →
  live_sessions db !! live_sessions_auto_increment db = None →
  createStreamInLivego cfg e streamKey ≠ None →
  (createLiveSession cfg e (BindOk courseID) db).2 = provisioning_failed
  ∧ ∃ r, live_sessions (createLiveSession cfg e (BindOk courseID) db).1
           !! live_sessions_auto_increment db = Some r
         ∧ status r = "pending" ∧ stream_key r = streamKey.
Proof.
  intros He Hr Hroll Hkey Hfree Hlivego.
  unfold createLiveSession. rewrite Hkey.
  unfold Exec at 1 3, insert_live_session. rewrite He. cbv beta zeta.
  rewrite Hfree. unfold LastInsertId. rewrite Hr. simpl.
  destruct (createStreamInLivego cfg e streamKey); [|done].
  unfold Exec. rewrite Hroll. simpl. split; [done|].
  eexists. by rewrite lookup_insert_eq.
Qed.

(** ** Playback endpoints *)

Lemma getPlayURLs_nonempty cfg streamKey : getPlayURLs cfg streamKey ≠ ∅.
Proof. unfold getPlayURLs. apply insert_non_empty. Qed.

Lemma append_cons x (a b : string) : String x a +:+ b = String x (a +:+ b).
Proof. reflexivity. Qed.

Lemma append_assoc (a b c : string) : (a +:+ b) +:+ c = a +:+ b +:+ c.
Proof.
  induction a as [|x a IH]; [reflexivity|].
  rewrite !append_cons. by f_equal.
Qed.

Lemma append_empty_r (a : string) : a +:+ "" = a.
Proof.
  induction a as [|x a IH]; [reflexivity|]. rewrite append_cons. by f_equal.
Qed.

Lemma contains_here key post : contains (key +:+ post) key.
Proof. by exists "", post. Qed.

Lemma contains_end key : contains key key.
Proof. exists "", "". by rewrite append_empty_r. Qed.

Lemma contains_append pre url key : contains url key → contains (pre +:+ url) key.
Proof.
  intros (a & b & ->). exists (pre +:+ a), b. by rewrite append_assoc.
Qed.

(** C8.  The playback endpoints are a function of the configuration and
    of the stream key alone (equal arguments give equal maps, and the
    computation has no access to the store): the map has exactly the three
    entries [rtmp], [hls] and [flv], and each of them is a nonempty string
    in which the stream key occurs. *)
Theorem play_urls_pure_and_complete cfg streamKey :
  (∀ cfg' streamKey', cfg' = cfg → streamKey' = streamKey →
     getPlayURLs cfg' streamKey' = getPlayURLs cfg streamKey)
  ∧ dom (getPlayURLs cfg streamKey) = {["rtmp"; "hls"; "flv"]}
  ∧ (∀ name, name ∈ ["rtmp"; "hls"; "flv"] →
     ∃ url, getPlayURLs cfg streamKey !! name = Some url
            ∧ url ≠ "" ∧ contains url streamKey).
Proof.
  split; [by intros ?? -> ->|]. split.
  - unfold getPlayURLs. rewrite !dom_insert_L, dom_empty_L. set_solver.
  - intros name Hname. unfold getPlayURLs.
    assert (name = "rtmp" ∨ name = "hls" ∨ name = "flv") as [-> | [-> | ->]].
    { set_unfold in Hname. tauto. }
    + exists ("rtmp://" +:+ LivegoURL cfg +:+ "/live/" +:+ streamKey).
      split; [by simplify_map_eq|]. split; [done|].
      do 2 apply contains_append. apply (contains_append "/live/"), contains_end.
    + exists ("http://" +:+ LivegoURL cfg +:+ ":7002/live/" +:+ streamKey +:+ ".m3u8").
      split; [by simplify_map_eq|]. split; [done|].
      do 2 apply contains_append. apply (contains_append ":7002/live/"), contains_here.
    + exists ("http://" +:+ LivegoURL cfg +:+ ":7001/live/" +:+ streamKey +:+ ".flv").
      split; [by simplify_map_eq|]. split; [done|].
      do 2 apply contains_append. apply (contains_append ":7001/live/"), contains_here.
Qed.

Lemma play_urls_pure_and_complete_witness :
  getPlayURLs cfg0 "abc" !! "hls" = Some "http://livego.local:7002/live/abc.m3u8"
  ∧ ∃ url, getPlayURLs cfg0 "abc" !! "flv" = Some url
           ∧ url ≠ "" ∧ contains url "abc".
Proof.
  split; [reflexivity|].
  apply (play_urls_pure_and_complete cfg0 "abc"). set_solver.
Defined.

Lemma getLiveSession_ok cfg e id db s :
  getLiveSession cfg e id db = reply StatusOK (JSession s) →
  ∃ r, live_sessions db !! id = Some r ∧ Status s = status r
       ∧ StreamKey s = stream_key r
       ∧ PlayURLs s = if decide (status r = "live")
                      then getPlayURLs cfg (stream_key r) else ∅.
Proof.
  unfold getLiveSession, select_live_session.
  destruct (exec_fails e); [discriminate|].
  destruct (live_sessions db !! id) as [r|]; [|discriminate].
  destruct (start_time r); [|discriminate].
  destruct (end_time r); [|discriminate].
  destruct (created_at r); [|discriminate]. simpl.
  intros [= <-]. exists r. by destruct (decide (status r = "live")).
Qed.

Lemma createLiveSession_created cfg e req db s :
  (createLiveSession cfg e req db).2 = reply StatusCreated (JSession s) →
  Status s = "pending" ∧ PlayURLs s = getPlayURLs cfg (StreamKey s).
Proof.
  unfold createLiveSession. destruct req as [msg|courseID]; [discriminate|].
  destruct (generateStreamKey e) as [streamKey|]; [|discriminate].
  destruct (Exec _ _ db) as [db1 [result|]]; [|discriminate].
  destruct (LastInsertId e result); [|discriminate].
  destruct (createStreamInLivego cfg e streamKey); [discriminate|].
  simpl. by intros [= <-].
Qed.

(** C1, as the code has it.  In a session that Get answers, the playback
    endpoints are present exactly when its status is [live], and they are
    then those computed from its stream key; Get does answer the session of
    a row whose three timestamps are written, when the driver reports no
    error.  The session answered by Create has status [pending] and
    nevertheless carries the three playback endpoints computed from the new
    stream key. *)
Theorem play_urls_in_responses cfg e id db :
  (∀ s, getLiveSession cfg e id db = reply StatusOK (JSession s) →
     (PlayURLs s ≠ ∅ ↔ Status s = "live")
     ∧ (Status s = "live" → PlayURLs s = getPlayURLs cfg (StreamKey s))
     ∧ (Status s ≠ "live" → PlayURLs s = ∅))
  ∧ (∀ r startTime endTime createdAt,
     exec_fails e = false → live_sessions db !! id = Some r →
     start_time r = Some startTime → end_time r = Some endTime →
     created_at r = Some createdAt →
     ∃ s, getLiveSession cfg e id db = reply StatusOK (JSession s)
          ∧ Status s = status r ∧ StreamKey s = stream_key r)
  ∧ (∀ req s,
     (createLiveSession cfg e req db).2 = reply StatusCreated (JSession s) →
     Status s = "pending"
     ∧ PlayURLs s = getPlayURLs cfg (StreamKey s)
     ∧ dom (PlayURLs s) = {["rtmp"; "hls"; "flv"]}).
Proof.
  split; [|split].
  - intros s (r & Hr & -> & -> & ->)%getLiveSession_ok.
    destruct (decide (status r = "live")) as [Hl|Hl].
    + split; [|done]. split; [done|]. intros _. apply getPlayURLs_nonempty.
    + split; [|done]. split; [done|]. done.
  - intros r startTime endTime createdAt He Hr Hs Hen Hc.
    unfold getLiveSession, select_live_session.
    rewrite He, Hr, Hs, Hen, Hc. simpl. eexists. split; [reflexivity|].
    by destruct (decide (status r = "live")).
  - intros req s (Hst & Hurls)%createLiveSession_created.
    split; [done|]. split; [done|]. rewrite Hurls.
    unfold getPlayURLs. rewrite !dom_insert_L, dom_empty_L. set_solver.
Qed.

Lemma play_urls_in_responses_witness :
  ∃ s, getLiveSession cfg0 e1 3 sample_store = reply StatusOK (JSession s)
       ∧ Status s = "ended" ∧ StreamKey s = "live_1700000000_ended".
Proof.
  apply (proj1 (proj2 (play_urls_in_responses cfg0 e1 3 sample_store))
           (sample_row "ended" (Some 1700000100) (Some 1700000200))
           1700000100 1700000200 1700000000); reflexivity.
Defined.

(** C1, as the claim states it, fails for Create: under a configuration
    whose Livego URL can be posted to, the session Create answers is
    [pending] and its playback endpoints are not empty. *)
Lemma create_response_carries_play_urls :
  ∃ s, (createLiveSession cfg1 e1 (BindOk 42) empty_store).2
       = reply StatusCreated (JSession s)
       ∧ Status s = "pending"
       ∧ PlayURLs s !! "rtmp"
         = Some "rtmp://http://livego.local:8090/live/live_1700000000_ABCDEFGHIJ"
       ∧ PlayURLs s ≠ ∅.
Proof.
  eexists. split; [reflexivity|]. split; [reflexivity|]. split; [reflexivity|].
  apply getPlayURLs_nonempty.
Qed.

(** ** Stream keys are not unique *)

Lemma random_bytes_S nano i n :
  random_bytes nano i (S n)
  = match charset_at (Z.rem (nano i) 62) with
    | None => None
    | Some c => match random_bytes nano (S i) n with
                | None => None
                | Some rest => Some (String c rest)
                end
    end.
Proof. reflexivity. Qed.

Lemma random_bytes_congruent nano nano' n : ∀ i,
  (∀ j, Z.rem (nano j) 62 = Z.rem (nano' j) 62) →
  random_bytes nano i n = random_bytes nano' i n.
Proof.
  induction n as [|n IH]; intros i H; [done|].
  by rewrite !random_bytes_S, (H i), (IH (S i) H).
Qed.

(** Two requests served within the same second whose clock readings agree
    modulo the size of the character set generate the same stream key. *)
Lemma generateStreamKey_collides e e' :
  unix e = unix e' →
  (∀ j, Z.rem (unix_nano e j) 62 = Z.rem (unix_nano e' j) 62) →
  generateStreamKey e = generateStreamKey e'.
Proof.
  intros Hu Hn. unfold generateStreamKey, generateRandomString.
  by rewrite Hu, (random_bytes_congruent _ (unix_nano e') 10 0%nat Hn).
Qed.

(** C6 fails on the code: under a configuration whose Livego URL can be
    posted to, two consecutive Creates both answer 201, under different
    identifiers, with one and the same stream key, and both rows are
    stored. *)
Theorem two_creates_share_stream_key :
  let first := createLiveSession cfg1 e_first (BindOk 42) empty_store in
  let second := createLiveSession cfg1 e_second (BindOk 43) first.1 in
  code first.2 = StatusCreated ∧ code second.2 = StatusCreated
  ∧ ID <$> session_of first.2 = Some 1
  ∧ ID <$> session_of second.2 = Some 2
  ∧ StreamKey <$> session_of first.2 = Some "live_1700000000_AAAAAAAAAA"
  ∧ StreamKey <$> session_of second.2 = Some "live_1700000000_AAAAAAAAAA"
  ∧ stream_key <$> live_sessions second.1 !! 1 = Some "live_1700000000_AAAAAAAAAA"
  ∧ stream_key <$> live_sessions second.1 !! 2 = Some "live_1700000000_AAAAAAAAAA".
Proof. vm_compute. repeat split. Qed.

(** ** Two Starts in flight *)

Section Race.
Variables (ea eb : Env) (id : Z) (r : SessionRow) (db : Store).
Hypothesis Hea : exec_fails ea = false.
Hypothesis Hra : result_fails ea = false.
Hypothesis Heb : exec_fails eb = false.
Hypothesis Hrb : result_fails eb = false.
Hypothesis Hrow : live_sessions db !! id = Some r.
Hypothesis Hpending : status r = "pending".

Lemma exec_first e : exec_fails e = false →
  Exec (exec_fails e) (start_statement e id) db = (started_by id r db e, Some one_row).
Proof.
  intros ->. unfold start_statement. rewrite exec_update_by_id, Hrow.
  by rewrite decide_True.
Qed.

Lemma exec_second e e' : exec_fails e = false →
  Exec (exec_fails e) (start_statement e id) (started_by id r db e')
  = (started_by id r db e', Some no_row).
Proof.
  intros ->. unfold start_statement. rewrite exec_update_by_id.
  unfold started_by, rewritten; simpl. rewrite lookup_insert_eq.
  cbv beta iota.
  destruct (decide (status (set_live (sql_now e') r) = "pending")) as [H|H];
    [discriminate H|done].
Qed.

Lemma reply_won e : result_fails e = false → start_reply e (Some one_row) = start_ok.
Proof. unfold start_reply, RowsAffected. by intros ->. Qed.

Lemma reply_lost e : result_fails e = false →
  start_reply e (Some no_row) = start_refused.
Proof. unfold start_reply, RowsAffected. by intros ->. Qed.

Local Ltac settle :=
  repeat split;
  first [ reflexivity | assumption | by left | by right
        | by right; left | by right; right ].

Lemma race_inv_step first c :
  race_inv ea eb id r db c →
  race_inv ea eb id r db (let '(db', a, b) := c in
            if first : bool
            then let '(db'', a') := thread_next db' a in (db'', a', b)
            else let '(db'', b') := thread_next db' b in (db'', a, b')).
Proof.
  destruct c as [[db' a] b]. unfold race_inv, won, lost.
  intros [(-> & -> & ->)|[(-> & Ha & Hb)|(-> & Ha & Hb)]]; destruct first.
  - cbn [thread_next]. rewrite (exec_first ea Hea). right; left. settle.
  - cbn [thread_next]. rewrite (exec_first eb Heb). right; right. settle.
  - destruct Ha as [->| ->]; cbn [thread_next]; right; left;
      rewrite ?(reply_won ea Hra); settle.
  - destruct Hb as [->|[->| ->]]; cbn [thread_next]; right; left;
      rewrite ?(exec_second eb ea Heb), ?(reply_lost eb Hrb); settle.
  - destruct Ha as [->|[->| ->]]; cbn [thread_next]; right; right;
      rewrite ?(exec_second ea eb Hea), ?(reply_lost ea Hra); settle.
  - destruct Hb as [->| ->]; cbn [thread_next]; right; right;
      rewrite ?(reply_won eb Hrb); settle.
Qed.

Lemma race_inv_run schedule : ∀ c, race_inv ea eb id r db c → 
  race_inv ea eb id r db (race schedule c).
Proof.
  induction schedule as [|first schedule IH]; intros c Hc; [done|].
  pose proof (race_inv_step first c Hc) as Hstep.
  destruct c as [[db' a] b]. simpl.
  destruct first.
  - destruct (thread_next db' a) as [db'' a']. by apply IH.
  - destruct (thread_next db' b) as [db'' b']. by apply IH.
Qed.
End Race.

(** C7.  Take a [pending] session and two Start requests for it, neither
    hit by a driver error.  The store executes one statement at a time,
    and the steps of the two requests interleave in any order.  Whenever
    both have answered, one has answered 200 and the other the 400
    refusal, and the stored start time is the [NOW()] of the one that
    answered 200: the other request has written nothing.  Both outcomes
    occur: the request whose statement runs first is the one that wins. *)
Theorem concurrent_starts_one_winner ea eb id r db :
  exec_fails ea = false → result_fails ea = false →
  exec_fails eb = false → result_fails eb = false →
  live_sessions db !! id = Some r → status r = "pending" →
  (∀ schedule db' ra rb,
     race schedule (db, Sending ea id, Sending eb id)
     = (db', Answered ra, Answered rb) →
     (ra = start_ok ∧ rb = start_refused
      ∧ db' = rewritten id (set_live (sql_now ea) r) db)
     ∨ (ra = start_refused ∧ rb = start_ok
        ∧ db' = rewritten id (set_live (sql_now eb) r) db))
  ∧ race [true; false; false; true] (db, Sending ea id, Sending eb id)
    = (rewritten id (set_live (sql_now ea) r) db,
       Answered start_ok, Answered start_refused)
  ∧ race [false; true; true; false] (db, Sending ea id, Sending eb id)
    = (rewritten id (set_live (sql_now eb) r) db,
       Answered start_refused, Answered start_ok).
Proof.
  intros Hea Hra Heb Hrb Hrow Hpending. split; [|split].
  - intros schedule db' ra rb Hrun.
    pose proof (race_inv_run ea eb id r db Hea Hra Heb Hrb Hrow Hpending schedule
                  (db, Sending ea id, Sending eb id)) as Hinv.
    rewrite Hrun in Hinv. unfold race_inv, won, lost in Hinv.
    destruct Hinv as [(_ & [=] & _)|[(-> & Ha & Hb)|(-> & Ha & Hb)]].
    + by left.
    + left. destruct Ha as [[=]|[= ->]]. destruct Hb as [[=]|[[=]|[= ->]]]. done.
    + right. destruct Hb as [[=]|[= ->]]. destruct Ha as [[=]|[[=]|[= ->]]]. done.
  - cbn [race thread_next]. rewrite (exec_first id r db Hrow Hpending ea Hea).
    cbn [fst snd]. rewrite (exec_second id r db eb ea Heb). cbn [fst snd].
    by rewrite (reply_lost eb Hrb), (reply_won ea Hra).
  - cbn [race thread_next]. rewrite (exec_first id r db Hrow Hpending eb Heb).
    cbn [fst snd]. rewrite (exec_second id r db ea eb Hea). cbn [fst snd].
    by rewrite (reply_lost ea Hra), (reply_won eb Hrb).
Qed.

Lemma concurrent_starts_one_winner_witness :
  race [false; true; false; true]
    (sample_store, Sending e1 1, Sending e_later 1)
  = (rewritten 1 (set_live 1700000005 (sample_row "pending" None None)) sample_store,
     Answered start_refused, Answered start_ok)
  ∧ ((start_refused = start_ok ∧ start_ok = start_refused
      ∧ rewritten 1 (set_live 1700000005 (sample_row "pending" None None)) sample_store
        = rewritten 1 (set_live (sql_now e1) (sample_row "pending" None None))
            sample_store)
     ∨ (start_refused = start_refused ∧ start_ok = start_ok
        ∧ rewritten 1 (set_live 1700000005 (sample_row "pending" None None)) sample_store
          = rewritten 1 (set_live (sql_now e_later) (sample_row "pending" None None))
              sample_store)).
Proof.
  split; [reflexivity|].
  apply (proj1 (concurrent_starts_one_winner e1 e_later 1
                  (sample_row "pending" None None) sample_store
                  eq_refl eq_refl eq_refl eq_refl eq_refl eq_refl)
           [false; true; false; true]).
  reflexivity.
Defined.

(** ** The options column of a question *)

Lemma createQuestion_store e q q' db :
  QCourseID q = QCourseID q' → QType q = QType q' → QContent q = QContent q' →
  QAnswer q = QAnswer q' → Join (QOptions q) "," = Join (QOptions q') "," →
  (createQuestion e (BindOk q) db).1 = (createQuestion e (BindOk q') db).1.
Proof.
  intros Hc Ht Hn Ha Ho. unfold createQuestion. rewrite Hc, Ht, Hn, Ha, Ho.
  destruct (Exec _ _ db) as [db1 [result|]]; [|done].
  by destruct (LastInsertId e result).
Qed.

Lemma createQuestion_stored e q db id :
  (createQuestion e (BindOk q) db).2 = reply StatusCreated (JQuestion (with_id q id)) →
  ∃ row, questions (createQuestion e (BindOk q) db).1 !! id = Some row
         ∧ q_options row = Join (QOptions q) ",".
Proof.
  unfold createQuestion, Exec, insert_question.
  destruct (exec_fails e); [discriminate|]. cbv beta zeta.
  destruct (questions db !! questions_auto_increment db); [discriminate|].
  unfold LastInsertId. destruct (result_fails e); [discriminate|]. simpl.
  intros [= <-]. eexists. by rewrite lookup_insert_eq.
Qed.

(** * Further properties of the code *)

(** ** Split and Join *)

Lemma append_nil_l (a : string) : "" +:+ a = a.
Proof. reflexivity. Qed.

Lemma Split_nonempty s sep : Split s sep ≠ [].
Proof.
  destruct s as [|c s]; simpl; [done|].
  destruct (decide (c = sep)); [done|]. by destruct (Split s sep).
Qed.

Lemma Split_free s sep : occurs sep s = false → Split s sep = [s].
Proof.
  induction s as [|c s IH]; simpl; [done|].
  destruct (decide (c = sep)); [done|]. intros H. by rewrite (IH H).
Qed.

Lemma Split_app s sep rest :
  occurs sep s = false →
  Split (s +:+ String sep rest) sep = s :: Split rest sep.
Proof.
  induction s as [|c s IH].
  - intros _. rewrite append_nil_l. simpl. by rewrite decide_True.
  - simpl occurs. destruct (decide (c = sep)) as [|Hne]; [done|]. intros H.
    rewrite append_cons. simpl. rewrite decide_False by done. by rewrite (IH H).
Qed.

Lemma Join_cons x y l sep :
  Join (x :: y :: l) sep = x +:+ sep +:+ Join (y :: l) sep.
Proof. reflexivity. Qed.

Lemma Join_of_Split s sep : Join (Split s sep) (String sep "") = s.
Proof.
  induction s as [|c s IH]; simpl; [done|].
  destruct (Split s sep) as [|p ps] eqn:Hs; [by apply Split_nonempty in Hs|].
  destruct (decide (c = sep)) as [->|Hne].
  - rewrite Join_cons, append_nil_l, append_cons, append_nil_l. by rewrite IH.
  - destruct ps as [|p2 ps].
    + simpl in *. by rewrite IH.
    + rewrite Join_cons in *. rewrite append_cons. by rewrite IH.
Qed.

Lemma Split_of_Join parts sep :
  parts ≠ [] → Forall (λ p, occurs sep p = false) parts →
  Split (Join parts (String sep "")) sep = parts.
Proof.
  induction parts as [|x [|y l] IH]; intros Hne Hfree; [done| |].
  - simpl. apply Split_free. by inversion Hfree.
  - rewrite Join_cons, append_cons, append_nil_l.
    inversion Hfree as [|?? Hx Hrest]; subst.
    rewrite (Split_app _ _ _ Hx). f_equal. by apply IH.
Qed.

Lemma length_Split s sep : length (Split s sep) = S (count_byte sep s).
Proof.
  induction s as [|c s IH]; simpl; [done|].
  destruct (decide (c = sep)); simpl; [by rewrite IH|].
  destruct (Split s sep) as [|p ps] eqn:Hs; [by apply Split_nonempty in Hs|].
  simpl in *. done.
Qed.

Lemma Split_parts_free s sep :
  Forall (λ p, occurs sep p = false) (Split s sep).
Proof.
  induction s as [|c s IH]; simpl; [by repeat constructor|].
  destruct (decide (c = sep)) as [|Hne]; [by constructor|].
  destruct (Split s sep) as [|p ps].
  { constructor; [|constructor]. simpl. by rewrite decide_False. }
  inversion IH as [|?? Hp Hps]; subst. constructor; [|done].
  simpl. by rewrite decide_False.
Qed.

(** X1.  [Split] and [Join] on a one-byte separator are inverse to each
    other: joining the parts of any string gives the string back, the
    parts are one more than the separators in the string and none of them
    contains the separator; and splitting the join of a nonempty list of
    separator-free parts gives the list back. *)
Theorem Split_Join_inverse sep :
  (∀ s, Join (Split s sep) (String sep "") = s
        ∧ length (Split s sep) = S (count_byte sep s)
        ∧ Forall (λ p, occurs sep p = false) (Split s sep))
  ∧ (∀ parts, parts ≠ [] → Forall (λ p, occurs sep p = false) parts →
       Split (Join parts (String sep "")) sep = parts).
Proof.
  split.
  - intros s. split; [apply Join_of_Split|].
    split; [apply length_Split|apply Split_parts_free].
  - intros parts. apply Split_of_Join.
Qed.

Lemma Split_Join_inverse_witness :
  Split (Join ["live"; "abc"; ""] "/") slash = ["live"; "abc"; ""].
Proof.
  apply (proj2 (Split_Join_inverse slash) ["live"; "abc"; ""]); [done|].
  repeat constructor.
Defined.

(** X2.  The options column determines the options among the lists that
    [Join] serialises faithfully: two questions created with nonempty
    lists of comma-free options and stored as the same row have the same
    options.  Outside those lists it does not: no options at all and the one
    empty option are both stored as the empty text. *)
Theorem options_column_faithful_without_commas e q q' db id :
  QOptions q ≠ [] → QOptions q' ≠ [] →
  Forall (λ o, occurs ","%char o = false) (QOptions q) →
  Forall (λ o, occurs ","%char o = false) (QOptions q') →
  (createQuestion e (BindOk q) db).2 = reply StatusCreated (JQuestion (with_id q id)) →
  (createQuestion e (BindOk q') db).2 = reply StatusCreated (JQuestion (with_id q' id)) →
  questions (createQuestion e (BindOk q) db).1 !! id
  = questions (createQuestion e (BindOk q') db).1 !! id →
  QOptions q = QOptions q'
  ∧ Join [] "," = Join [""] ",".
Proof.
  intros Hne Hne' Hfree Hfree' Hq Hq' Hsame. split; [|done].
  apply createQuestion_stored in Hq as (row & Hrow & Hopt).
  apply createQuestion_stored in Hq' as (row' & Hrow' & Hopt').
  assert (row = row') as <- by congruence.
  rewrite <- (Split_of_Join (QOptions q) ","%char Hne Hfree).
  rewrite <- (Split_of_Join (QOptions q') ","%char Hne' Hfree').
  by rewrite <- Hopt, <- Hopt'.
Qed.

Lemma options_column_faithful_without_commas_witness :
  QOptions (question_with ["a"; "b"]) = QOptions (question_with ["a"; "b"])
  ∧ Join [] "," = Join [""] ",".
Proof.
  apply (options_column_faithful_without_commas e1 (question_with ["a"; "b"])
           (question_with ["a"; "b"]) empty_store 1);
    try done; repeat constructor.
Defined.

(** ** What the options column loses *)

Lemma Join_app xs ys sep :
  xs ≠ [] → ys ≠ [] →
  Join (xs ++ ys) sep = Join xs sep +:+ sep +:+ Join ys sep.
Proof.
  induction xs as [|x [|x2 l] IH]; intros Hx Hy; [done| |].
  - destruct ys as [|y ys]; [done|]. reflexivity.
  - change ((x :: x2 :: l) ++ ys)%list with (x :: ((x2 :: l) ++ ys))%list.
    change ((x2 :: l) ++ ys)%list with (x2 :: (l ++ ys))%list at 1.
    rewrite Join_cons.
    change (x2 :: (l ++ ys))%list with ((x2 :: l) ++ ys)%list.
    rewrite IH by done. rewrite Join_cons. by rewrite !append_assoc.
Qed.

Lemma Join_middle xs m m' ys sep :
  m ≠ [] → m' ≠ [] → Join m sep = Join m' sep →
  Join (xs ++ m ++ ys) sep = Join (xs ++ m' ++ ys) sep.
Proof.
  intros Hm Hm' Heq.
  assert (Hr : Join (m ++ ys) sep = Join (m' ++ ys) sep).
  { destruct ys as [|y ys]; [by rewrite !app_nil_r|].
    by rewrite !Join_app, Heq. }
  destruct xs as [|x xs]; [done|].
  rewrite !(Join_app (x :: xs)); [by rewrite Hr|done| |done|].
  - by destruct m'.
  - by destruct m.
Qed.

Lemma occurs_cut c s :
  occurs c s = true → ∃ a b, s = a +:+ String c b.
Proof.
  induction s as [|x s IH]; simpl; [done|].
  destruct (decide (x = c)) as [->|Hne].
  - intros _. by exists "", s.
  - intros (a & b & ->)%IH. by exists (String x a), b.
Qed.

(** C10.  Create stores the options of a question as their elements
    joined by a comma, and the stored text gives the options back, by
    splitting at the commas, when the list is not empty and no option
    contains a comma.  In general the join is not injective: an option
    [a,b] and the two options [a] and [b] in its place are stored as the
    same text, so for every list with an option that contains a comma there
    is another list stored as the same text; two such questions leave the
    store in the same state, and no reading of the store, the fetch
    operation included, answers each of them with the options it was
    created with. *)
Theorem options_are_not_recoverable :
  (∀ e q db id,
     (createQuestion e (BindOk q) db).2
     = reply StatusCreated (JQuestion (with_id q id)) →
     ∃ row, questions (createQuestion e (BindOk q) db).1 !! id = Some row
            ∧ q_options row = Join (QOptions q) ","
            ∧ (QOptions q ≠ [] →
               Forall (λ o, occurs ","%char o = false) (QOptions q) →
               Split (q_options row) ","%char = QOptions q))
  ∧ (∀ xs a b ys,
     (xs ++ [a +:+ "," +:+ b] ++ ys)%list ≠ (xs ++ [a; b] ++ ys)%list
     ∧ Join (xs ++ [a +:+ "," +:+ b] ++ ys) ","
       = Join (xs ++ [a; b] ++ ys) ",")
  ∧ (∀ options o, o ∈ options → occurs ","%char o = true →
     ∃ options', options' ≠ options ∧ Join options' "," = Join options ",")
  ∧ (∀ e q q' db,
     QCourseID q = QCourseID q' → QType q = QType q' →
     QContent q = QContent q' → QAnswer q = QAnswer q' →
     QOptions q ≠ QOptions q' →
     Join (QOptions q) "," = Join (QOptions q') "," →
     (createQuestion e (BindOk q) db).1 = (createQuestion e (BindOk q') db).1
     ∧ (∀ fetch : Store → option (list string),
        ¬ (fetch (createQuestion e (BindOk q) db).1 = Some (QOptions q)
           ∧ fetch (createQuestion e (BindOk q') db).1 = Some (QOptions q')))
     ∧ (∀ e' course id,
        pushQuestion e' course id (createQuestion e (BindOk q) db).1
        = pushQuestion e' course id (createQuestion e (BindOk q') db).1)).
Proof.
  assert (Hmid : ∀ xs a b ys,
    (xs ++ [a +:+ "," +:+ b] ++ ys)%list ≠ (xs ++ [a; b] ++ ys)%list
    ∧ Join (xs ++ [a +:+ "," +:+ b] ++ ys) "," = Join (xs ++ [a; b] ++ ys) ",").
  { intros xs a b ys. split.
    - intros H. apply (f_equal length) in H. rewrite !length_app in H.
      simpl in H. lia.
    - by apply Join_middle. }
  split; [|split; [done|split]].
  - intros e q db id (row & Hrow & Hopt)%createQuestion_stored.
    exists row. split; [done|]. split; [done|]. intros Hne Hfree.
    rewrite Hopt. by apply Split_of_Join.
  - intros options o Ho Hcomma.
    apply list_elem_of_split in Ho as (xs & ys & ->).
    apply occurs_cut in Hcomma as (a & b & ->).
    exists (xs ++ [a; b] ++ ys)%list.
    destruct (Hmid xs a b ys) as [Hne Heq]. split; [done|].
    symmetry. exact Heq.
  - intros e q q' db Hc Ht Hn Ha Hdiff Hjoin.
    pose proof (createQuestion_store e q q' db Hc Ht Hn Ha Hjoin) as Hstore.
    split; [done|]. split.
    + intros fetch [H1 H2]. rewrite Hstore in H1. congruence.
    + intros e' course id. by rewrite Hstore.
Qed.

Lemma options_are_not_recoverable_witness :
  (∃ row, questions (createQuestion e1 (BindOk (question_with ["a"; "b"]))
                       empty_store).1 !! 1 = Some row
          ∧ q_options row = "a,b"
          ∧ (["a"; "b"] ≠ [] →
             Forall (λ o, occurs ","%char o = false) ["a"; "b"] →
             Split (q_options row) ","%char = ["a"; "b"]))
  ∧ (createQuestion e1 (BindOk (question_with ["a,b"])) empty_store).1
    = (createQuestion e1 (BindOk (question_with ["a"; "b"])) empty_store).1.
Proof.
  destruct options_are_not_recoverable as (Hstored & _ & _ & Hsame).
  split.
  - apply (Hstored e1 (question_with ["a"; "b"]) empty_store 1). reflexivity.
  - apply (Hsame e1 (question_with ["a,b"]) (question_with ["a"; "b"])
             empty_store); try reflexivity. discriminate.
Defined.

(** ** Generated stream keys *)

Lemma get_occurs s : ∀ k c, String.get k s = Some c → occurs c s = true.
Proof.
  induction s as [|x s IH]; intros k c; [by destruct k|].
  destruct k as [|k]; simpl.
  - intros [= ->]. by rewrite decide_True.
  - intros H. destruct (decide (x = c)); [done|]. by apply (IH k).
Qed.

Lemma get_below s : ∀ k, (k < String.length s)%nat → is_Some (String.get k s).
Proof.
  induction s as [|x s IH]; intros k; simpl; [lia|].
  destruct k as [|k]; [by eexists|]. intros H. apply IH. lia.
Qed.

Lemma charset_at_negative n : (n < 0)%Z → charset_at n = None.
Proof. unfold charset_at. intros H. by rewrite (proj2 (Z.ltb_lt n 0) H). Qed.

Lemma charset_at_index n :
  (0 ≤ n < 62)%Z → ∃ c, charset_at n = Some c ∧ occurs c charset = true.
Proof.
  intros [H0 H62]. unfold charset_at. rewrite (proj2 (Z.ltb_ge n 0) H0).
  destruct (get_below charset (Z.to_nat n)) as [c Hc].
  { change (String.length charset) with 62%nat. lia. }
  exists c. split; [done|]. by apply get_occurs in Hc.
Qed.

Lemma rem_62 x : (-62 < Z.rem x 62 < 62)%Z.
Proof. pose proof (Z.rem_bound_abs x 62). lia. Qed.

Lemma random_bytes_some nano n : ∀ i s,
  random_bytes nano i n = Some s →
  String.length s = n ∧ all_in charset s = true
  ∧ ∀ j, (i ≤ j < i + n)%nat → (0 ≤ Z.rem (nano j) 62)%Z.
Proof.
  induction n as [|n IH]; intros i s.
  - simpl. intros [= <-]. repeat split. lia.
  - rewrite random_bytes_S.
    destruct (charset_at (Z.rem (nano i) 62)) as [c|] eqn:Hc; [|discriminate].
    destruct (random_bytes nano (S i) n) as [rest|] eqn:Hrest; [|discriminate].
    intros [= <-]. destruct (IH _ _ Hrest) as (Hlen & Hall & Hpos).
    assert (0 ≤ Z.rem (nano i) 62)%Z as Hi.
    { destruct (Z.lt_ge_cases (Z.rem (nano i) 62) 0) as [Hneg|]; [|done].
      by rewrite (charset_at_negative _ Hneg) in Hc. }
    split; [simpl; by rewrite Hlen|]. split.
    + change (all_in charset (String c rest))
        with (occurs c charset && all_in charset rest).
      rewrite Hall, andb_true_r.
      destruct (charset_at_index (Z.rem (nano i) 62)) as (c' & Hc' & Hocc).
      { pose proof (rem_62 (nano i)). lia. }
      congruence.
    + intros j Hj. destruct (decide (j = i)) as [->|]; [done|]. apply Hpos. lia.
Qed.

Lemma random_bytes_none nano n : ∀ i,
  random_bytes nano i n = None →
  ∃ j, (i ≤ j < i + n)%nat ∧ (Z.rem (nano j) 62 < 0)%Z.
Proof.
  induction n as [|n IH]; intros i; [discriminate|].
  rewrite random_bytes_S.
  destruct (Z.lt_ge_cases (Z.rem (nano i) 62) 0) as [Hneg|Hpos].
  { intros _. exists i. split; [lia|done]. }
  destruct (charset_at_index (Z.rem (nano i) 62)) as (c & -> & _).
  { pose proof (rem_62 (nano i)). lia. }
  destruct (random_bytes nano (S i) n) eqn:Hrest; [discriminate|].
  intros _. destruct (IH _ Hrest) as (j & Hj & Hneg). exists j. split; [lia|done].
Qed.

(** X3.  [generateRandomString] panics on its first index out of range
    exactly when one of the clock readings it takes has a negative
    remainder modulo 62, which a reading at or after the epoch never has;
    otherwise it returns a string of the requested length, all of whose
    bytes are of the character set. *)
Theorem generateRandomString_total_after_epoch nano n :
  (generateRandomString nano n = None
   ↔ ∃ j, (j < n)%nat ∧ (Z.rem (nano j) 62 < 0)%Z)
  ∧ (∀ s, generateRandomString nano n = Some s →
       String.length s = n ∧ all_in charset s = true)
  ∧ ((∀ j, (j < n)%nat → (0 ≤ nano j)%Z) →
     ∃ s, generateRandomString nano n = Some s).
Proof.
  unfold generateRandomString.
  assert (Hiff : random_bytes nano 0 n = None
                 ↔ ∃ j, (j < n)%nat ∧ (Z.rem (nano j) 62 < 0)%Z).
  { split.
    - intros (j & Hj & Hneg)%random_bytes_none. exists j. split; [lia|done].
    - intros (j & Hj & Hneg).
      destruct (random_bytes nano 0 n) as [s|] eqn:Hs; [|done].
      apply random_bytes_some in Hs as (_ & _ & Hpos).
      specialize (Hpos j). lia. }
  split; [done|]. split.
  - intros s Hs. apply random_bytes_some in Hs as (? & ? & _). done.
  - intros Hpos. destruct (random_bytes nano 0 n) as [s|] eqn:Hs; [by exists s|].
    apply random_bytes_none in Hs as (j & Hj & Hneg).
    assert (0 ≤ nano j)%Z as Hnano by (apply Hpos; lia).
    pose proof (Z.rem_bound_pos (nano j) 62 Hnano). lia.
Qed.

Lemma generateRandomString_total_after_epoch_witness :
  ∃ s, generateRandomString (unix_nano e1) 10 = Some s.
Proof.
  apply (generateRandomString_total_after_epoch (unix_nano e1) 10).
  intros j _. simpl. lia.
Defined.

Lemma occurs_append c a b : occurs c (a +:+ b) = occurs c a || occurs c b.
Proof.
  induction a as [|x a IH]; [done|].
  rewrite append_cons. simpl. by destruct (decide (x = c)).
Qed.

Lemma all_in_free alphabet c s :
  occurs c alphabet = false → all_in alphabet s = true → occurs c s = false.
Proof.
  intros Hc. induction s as [|x s IH]; simpl; [done|].
  intros [Hx Hs]%andb_true_iff. destruct (decide (x = c)) as [->|]; [congruence|].
  by apply IH.
Qed.

Lemma string_of_uint_slash_free d :
  occurs slash (NilEmpty.string_of_uint d) = false.
Proof. induction d; simpl; done. Qed.

Lemma sprint_d_slash_free n : occurs slash (sprint_d n) = false.
Proof.
  unfold sprint_d, NilZero.string_of_int, NilZero.string_of_uint.
  destruct (Z.to_int n) as [d|d]; destruct d;
    simpl; try done; apply string_of_uint_slash_free.
Qed.

Lemma generateStreamKey_shape e k :
  generateStreamKey e = Some k →
  ∃ r, k = "live_" +:+ sprint_d (unix e) +:+ "_" +:+ r
       ∧ String.length r = 10%nat ∧ all_in charset r = true.
Proof.
  unfold generateStreamKey.
  destruct (generateRandomString (unix_nano e) 10) as [r|] eqn:Hr; [|discriminate].
  intros [= <-]. exists r. split; [done|].
  by apply random_bytes_some in Hr as (? & ? & _).
Qed.

Lemma generateStreamKey_slash_free e k :
  generateStreamKey e = Some k → occurs slash k = false.
Proof.
  intros (r & -> & _ & Hall)%generateStreamKey_shape.
  rewrite !occurs_append, sprint_d_slash_free.
  by rewrite (all_in_free charset slash r eq_refl Hall).
Qed.

(** X4.  A generated stream key is [live_], the decimal Unix second, an
    underscore and ten bytes of the character set; it contains no slash,
    so it is exactly the third segment of its callback path
    [/live/<key>]. *)
Theorem generateStreamKey_format e k :
  generateStreamKey e = Some k →
  (∃ r, k = "live_" +:+ sprint_d (unix e) +:+ "_" +:+ r
        ∧ String.length r = 10%nat ∧ all_in charset r = true)
  ∧ occurs slash k = false
  ∧ Split ("/live/" +:+ k) slash = [""; "live"; k].
Proof.
  intros Hk. split; [by apply generateStreamKey_shape|].
  pose proof (generateStreamKey_slash_free e k Hk) as Hfree.
  split; [done|].
  change ("/live/" +:+ k) with ("" +:+ String slash ("live" +:+ String slash k)).
  rewrite Split_app by done. rewrite Split_app by done.
  by rewrite Split_free.
Qed.

Lemma generateStreamKey_format_witness :
  Split ("/live/" +:+ "live_1700000000_ABCDEFGHIJ") slash
  = [""; "live"; "live_1700000000_ABCDEFGHIJ"].
Proof.
  apply (generateStreamKey_format e1 "live_1700000000_ABCDEFGHIJ"). reflexivity.
Defined.

(** ** The path of a status callback *)

Lemma callback_by_segment e p p' event db :
  Split p slash !! 2%nat = Split p' slash !! 2%nat →
  handleLiveStatusCallback e (callback_for p event) db
  = handleLiveStatusCallback e (callback_for p' event) db.
Proof. intros H. unfold handleLiveStatusCallback, callback_for. simpl. by rewrite H. Qed.

Lemma Split_three a b key :
  occurs slash a = false → occurs slash b = false →
  Split (a +:+ "/" +:+ b +:+ "/" +:+ key) slash = a :: b :: Split key slash.
Proof.
  intros Ha Hb.
  change (a +:+ "/" +:+ b +:+ "/" +:+ key)
    with (a +:+ String slash (b +:+ String slash key)).
  by rewrite !Split_app.
Qed.

(** X5.  The callback takes the third slash-separated segment of the path
    as the stream key and looks at nothing else of the path: whatever the
    first two segments are, and whether or not further segments follow,
    the request is served exactly as the one for [/live/<key>]. *)
Theorem callback_reads_third_segment e a b key event db :
  occurs slash a = false → occurs slash b = false → occurs slash key = false →
  handleLiveStatusCallback e (callback_for (a +:+ "/" +:+ b +:+ "/" +:+ key) event) db
  = handleLiveStatusCallback e (callback_for ("/live/" +:+ key) event) db
  ∧ ∀ rest,
      handleLiveStatusCallback e
        (callback_for (a +:+ "/" +:+ b +:+ "/" +:+ key +:+ "/" +:+ rest) event) db
      = handleLiveStatusCallback e (callback_for ("/live/" +:+ key) event) db.
Proof.
  intros Ha Hb Hkey.
  assert (Hlive : Split ("/live/" +:+ key) slash !! 2%nat = Some key).
  { change ("/live/" +:+ key) with ("" +:+ "/" +:+ "live" +:+ "/" +:+ key).
    rewrite Split_three by done. by rewrite Split_free. }
  split.
  - apply callback_by_segment. rewrite Hlive, Split_three by done.
    by rewrite Split_free.
  - intros rest. apply callback_by_segment. rewrite Hlive, Split_three by done.
    change (key +:+ "/" +:+ rest) with (key +:+ String slash rest).
    by rewrite Split_app.
Qed.

Lemma callback_reads_third_segment_witness :
  handleLiveStatusCallback e1
    (callback_for "rtmp/app/live_1700000000_pending/extra" "start") sample_store
  = handleLiveStatusCallback e1
      (callback_for "/live/live_1700000000_pending" "start") sample_store.
Proof.
  apply (proj2 (callback_reads_third_segment e1 "rtmp" "app"
                  "live_1700000000_pending" "start" sample_store
                  eq_refl eq_refl eq_refl) "extra").
Defined.

(** X6.  The callback refuses a path exactly when it has fewer than two
    slashes: it then answers 400 "Invalid stream path" and leaves the store
    as it is, whatever the event; every other path is acknowledged
    with 200. *)
Theorem callback_malformed_path e path event db :
  ((count_byte slash path < 2)%nat
   ↔ handleLiveStatusCallback e (callback_for path event) db
     = (db, invalid_stream_path))
  ∧ ((2 ≤ count_byte slash path)%nat →
     (handleLiveStatusCallback e (callback_for path event) db).2 = callback_ack).
Proof.
  unfold handleLiveStatusCallback, callback_for. simpl.
  destruct (Split path slash !! 2%nat) as [key|] eqn:Hkey.
  - apply lookup_lt_Some in Hkey. rewrite length_Split in Hkey.
    split; [|done]. split; [lia|discriminate].
  - apply lookup_ge_None in Hkey. rewrite length_Split in Hkey.
    split; [|lia]. split; [done|lia].
Qed.

Lemma callback_malformed_path_witness :
  handleLiveStatusCallback e1 (callback_for "/live" "start") sample_store
  = (sample_store, invalid_stream_path).
Proof.
  apply (proj1 (callback_malformed_path e1 "/live" "start" sample_store)).
  vm_compute. lia.
Defined.

(** ** Create, and what follows it *)

(** The store after an accepted insert of [createLiveSession]. *)
Lemma createLiveSession_accepts cfg e courseID streamKey db :
  exec_fails e = false → result_fails e = false →
  generateStreamKey e = Some streamKey →
  live_sessions db !! live_sessions_auto_increment db = None →
  createStreamInLivego cfg e streamKey = None →
  createLiveSession cfg e (BindOk courseID) db
  = (with_live_sessions db
       (<[live_sessions_auto_increment db :=
            pending_row courseID streamKey (sql_now e)]> (live_sessions db))
       (live_sessions_auto_increment db + 1),
     reply StatusCreated
       (JSession {| ID := live_sessions_auto_increment db; CourseID := courseID;
                    StreamKey := streamKey; Status := "pending";
                    StartTime := None; EndTime := None;
                    CreatedAt := Some (wall e);
                    PlayURLs := getPlayURLs cfg streamKey |})).
Proof.
  intros He Hr Hkey Hfree Hlivego. unfold createLiveSession. rewrite Hkey.
  unfold Exec, insert_live_session. rewrite He. cbv beta zeta.
  rewrite Hfree. unfold LastInsertId. rewrite Hr. simpl. by rewrite Hlivego.
Qed.

Lemma getLiveSession_row cfg e id db :
  exec_fails e = false →
  getLiveSession cfg e id db
  = match live_sessions db !! id with
    | None => session_not_found
    | Some r =>
        match start_time r, end_time r, created_at r with
        | Some _, Some _, Some _ =>
            reply StatusOK
              (JSession (if decide (status r = "live")
                         then with_play_urls (session_of_row id r)
                                (getPlayURLs cfg (stream_key r))
                         else session_of_row id r))
        | _, _, _ => session_unreadable
        end
    end.
Proof.
  intros He. unfold getLiveSession, select_live_session. rewrite He.
  destruct (live_sessions db !! id) as [r|]; [|done].
  by destruct r as [c k st [startTime|] [endTime|] [createdAt|]].
Qed.

(** X7.  Create then Get.  When the driver reports no error, the key is
    generated, the next identifier is free and Livego answers 200, Create
    answers 201 with the next identifier, the course, the generated key and
    status [pending], and the row is stored with the creation time of the
    store's clock (Create had answered the one of the process clock) and
    without start and end time.  Get on that identifier then finds the row
    and answers 500 "Failed to get live session", not the session: the two
    unwritten timestamps cannot be scanned.  Get on every other identifier
    answers as it did before. *)
Theorem create_then_get cfg e e' courseID streamKey db :
  exec_fails e = false → result_fails e = false →
  generateStreamKey e = Some streamKey →
  live_sessions db !! live_sessions_auto_increment db = None →
  createStreamInLivego cfg e streamKey = None →
  exec_fails e' = false →
  let id := live_sessions_auto_increment db in
  let out := createLiveSession cfg e (BindOk courseID) db in
  out.2 = reply StatusCreated
            (JSession {| ID := id; CourseID := courseID; StreamKey := streamKey;
                         Status := "pending"; StartTime := None; EndTime := None;
                         CreatedAt := Some (wall e);
                         PlayURLs := getPlayURLs cfg streamKey |})
  ∧ live_sessions out.1 !! id = Some (pending_row courseID streamKey (sql_now e))
  ∧ getLiveSession cfg e' id out.1 = session_unreadable
  ∧ ∀ j, j ≠ id → getLiveSession cfg e' j out.1 = getLiveSession cfg e' j db.
Proof.
  intros He Hr Hkey Hfree Hlivego He' id out. subst out.
  rewrite (createLiveSession_accepts cfg e courseID streamKey db) by done.
  simpl. split; [done|]. split; [by rewrite lookup_insert_eq|]. split.
  - rewrite getLiveSession_row by done. simpl. by rewrite lookup_insert_eq.
  - intros j Hj. rewrite !getLiveSession_row by done. simpl.
    by rewrite lookup_insert_ne.
Qed.

Lemma create_then_get_witness :
  getLiveSession cfg1 e1 4 (createLiveSession cfg1 e1 (BindOk 42) sample_store).1
  = session_unreadable.
Proof.
  apply (create_then_get cfg1 e1 e1 42 "live_1700000000_ABCDEFGHIJ" sample_store);
    reflexivity.
Defined.

(** ** Identifiers *)

Lemma exec_update_ids fails cond set db i :
  is_Some (live_sessions (Exec fails (update_live_sessions cond set) db).1 !! i) →
  is_Some (live_sessions db !! i).
Proof.
  unfold Exec, update_live_sessions. destruct fails; simpl; [done|].
  pose proof (updated_lookup cond set db i) as Hl. unfold updated in Hl.
  simpl in Hl. rewrite Hl.
  destruct (live_sessions db !! i); simpl; [by eexists|by intros [? [=]]].
Qed.

(** A request adds at most the row of the next identifier, and then moves
    the counter past it; the counter never goes back. *)
Lemma initRouter_ids cfg e req db :
  (live_sessions_auto_increment db
   ≤ live_sessions_auto_increment (initRouter cfg e req db).1)%Z
  ∧ ∀ i, is_Some (live_sessions (initRouter cfg e req db).1 !! i) →
         is_Some (live_sessions db !! i)
         ∨ (i = live_sessions_auto_increment db
            ∧ live_sessions_auto_increment (initRouter cfg e req db).1
              = live_sessions_auto_increment db + 1).
Proof.
  assert (Hupd : ∀ fails cond set,
    (live_sessions_auto_increment db
     ≤ live_sessions_auto_increment
         (Exec fails (update_live_sessions cond set) db).1)%Z
    ∧ ∀ i, is_Some (live_sessions
                      (Exec fails (update_live_sessions cond set) db).1 !! i) →
           is_Some (live_sessions db !! i)
           ∨ (i = live_sessions_auto_increment db
              ∧ live_sessions_auto_increment
                  (Exec fails (update_live_sessions cond set) db).1
                = live_sessions_auto_increment db + 1)).
  { intros fails cond set.
    destruct (exec_update_rest fails cond set db) as (-> & _). split; [lia|].
    intros i Hi. left. by eapply exec_update_ids. }
  destruct req as [req|id|id|id|req|req|c q]; simpl.
  - destruct (createLiveSession_store cfg e req db)
      as [->|[Hfree [(r0 & Hr0 & ->)| ->]]]; simpl.
    + split; [lia|]. by left.
    + split; [lia|]. intros i.
      destruct (decide (i = live_sessions_auto_increment db)) as [->|Hne];
        [by right|].
      rewrite lookup_insert_ne by done. by left.
    + split; [lia|]. by left.
  - split; [lia|]. by left.
  - unfold startLiveSession.
    destruct (Exec (exec_fails e) (start_statement e id) db) as [db' res] eqn:HE.
    simpl. change db' with (db', res).1. rewrite <- HE. apply Hupd.
  - unfold endLiveSession.
    destruct (Exec (exec_fails e) (end_statement e id) db) as [db' res] eqn:HE.
    simpl. change db' with (db', res).1. rewrite <- HE. apply Hupd.
  - unfold handleLiveStatusCallback. destruct req as [msg|cb];
      [simpl; split; [lia|by left]|].
    destruct (Split (StreamPath cb) slash !! 2%nat) as [key|];
      [|simpl; split; [lia|by left]].
    simpl. destruct (decide (CallbackStatus cb = "start")); [apply Hupd|].
    destruct (decide (CallbackStatus cb = "stop")); [apply Hupd|].
    split; [lia|by left].
  - unfold createQuestion. destruct req as [msg|q];
      [simpl; split; [lia|by left]|].
    unfold Exec, insert_question.
    destruct (exec_fails e); [simpl; split; [lia|by left]|].
    cbv beta zeta.
    destruct (questions db !! questions_auto_increment db);
      [simpl; split; [lia|by left]|].
    unfold LastInsertId.
    destruct (result_fails e); simpl; (split; [lia|by left]).
  - split; [lia|]. by left.
Qed.

Lemma initRouter_ids_below cfg e req db :
  ids_below db → ids_below (initRouter cfg e req db).1.
Proof.
  intros Hdb i Hi. destruct (initRouter_ids cfg e req db) as [Hle Hnew].
  destruct (Hnew i Hi) as [Hold|[-> ->]]; [|lia].
  specialize (Hdb i Hold). lia.
Qed.

Lemma serve_ids_below cfg reqs : ∀ db,
  ids_below db →
  ids_below (serve cfg reqs db)
  ∧ (live_sessions_auto_increment db
     ≤ live_sessions_auto_increment (serve cfg reqs db))%Z.
Proof.
  induction reqs as [|[e req] reqs IH]; intros db Hdb; simpl; [split; [done|lia]|].
  destruct (IH _ (initRouter_ids_below cfg e req db Hdb)) as [Hinv Hle].
  split; [done|]. pose proof (proj1 (initRouter_ids cfg e req db)). lia.
Qed.

(** X8.  Over every sequence of requests the auto-increment counter never
    decreases and, once every stored identifier is below it, that stays so:
    the identifier the next insert takes is free, and the identifier of a
    session that was stored is never given to another.  The store reached
    from the empty one by any requests is such a store. *)
Theorem identifiers_stay_below_counter cfg reqs db :
  (ids_below db →
   ids_below (serve cfg reqs db)
   ∧ (live_sessions_auto_increment db
      ≤ live_sessions_auto_increment (serve cfg reqs db))%Z
   ∧ live_sessions (serve cfg reqs db)
       !! live_sessions_auto_increment (serve cfg reqs db) = None)
  ∧ ids_below (serve cfg reqs empty_store).
Proof.
  assert (Hempty : ids_below empty_store).
  { intros i [r Hr]. unfold empty_store in Hr. simpl in Hr.
    by rewrite lookup_empty in Hr. }
  split; [|by apply serve_ids_below].
  intros Hdb. destruct (serve_ids_below cfg reqs db Hdb) as [Hinv Hle].
  split; [done|]. split; [done|].
  destruct (live_sessions (serve cfg reqs db)
              !! live_sessions_auto_increment (serve cfg reqs db)) eqn:Hl; [|done].
  assert (is_Some (live_sessions (serve cfg reqs db)
              !! live_sessions_auto_increment (serve cfg reqs db))) as Hs
    by (by eexists).
  specialize (Hinv _ Hs). lia.
Qed.

Lemma sample_store_ids_below : ids_below sample_store.
Proof.
  intros i [r Hr].
  apply sample_store_ids in Hr as [[-> _]|[[-> _]|[-> _]]]; reflexivity.
Qed.

Lemma identifiers_stay_below_counter_witness :
  live_sessions (serve cfg0 sample_requests sample_store)
    !! live_sessions_auto_increment (serve cfg0 sample_requests sample_store)
  = None.
Proof.
  apply (proj1 (identifiers_stay_below_counter cfg0 sample_requests sample_store)
           sample_store_ids_below).
Defined.

(** ** Start, End and the callback in sequence *)

Lemma rewritten_lookup id r db :
  live_sessions (rewritten id r db) !! id = Some r.
Proof. unfold rewritten. simpl. apply lookup_insert_eq. Qed.

(** X9.  Start then End, and what Get shows in between.  Take a
    [pending] session as Create stores it, with the creation time written
    and no start or end time, and no driver error.  End is refused before
    Start and accepted after it; Start is accepted once and refused
    afterwards; after Start then End the row carries both timestamps, each
    of its own request, and both Start and End are refused from then on
    without changing the store.  Get answers 500 "Failed to get live
    session" while the session is [pending] and while it is [live], since
    a timestamp is still unwritten, and answers the session, with both
    timestamps and without playback endpoints, only once it is [ended]. *)
Theorem start_then_end cfg es ee e id r createdAt db :
  driver_ok es → driver_ok ee → driver_ok e →
  live_sessions db !! id = Some r → status r = "pending" →
  start_time r = None → end_time r = None → created_at r = Some createdAt →
  let live := rewritten id (set_live (sql_now es) r) db in
  let ended := rewritten id (set_ended (sql_now ee) (set_live (sql_now es) r)) live in
  endLiveSession ee id db = (db, end_refused)
  ∧ startLiveSession es id db = (live, start_ok)
  ∧ startLiveSession e id live = (live, start_refused)
  ∧ endLiveSession ee id live = (ended, end_ok)
  ∧ startLiveSession e id ended = (ended, start_refused)
  ∧ endLiveSession e id ended = (ended, end_refused)
  ∧ getLiveSession cfg e id db = session_unreadable
  ∧ getLiveSession cfg e id live = session_unreadable
  ∧ getLiveSession cfg e id ended
    = reply StatusOK
        (JSession {| ID := id; CourseID := course_id r; StreamKey := stream_key r;
                     Status := "ended"; StartTime := Some (sql_now es);
                     EndTime := Some (sql_now ee); CreatedAt := Some createdAt;
                     PlayURLs := ∅ |}).
Proof.
  intros [Hes Hrs] [Hee Hre] [He Hr] Hrow Hst Hstart Hend Hcreated live ended.
  rewrite !startLiveSession_spec, !endLiveSession_spec by done.
  rewrite !getLiveSession_row by done.
  subst ended live. rewrite !rewritten_lookup, Hrow. simpl.
  rewrite Hstart, Hend, Hcreated.
  rewrite (decide_False (P := status r = "live")) by congruence.
  rewrite (decide_True (P := status r = "pending")) by done.
  repeat split. unfold session_of_row. simpl. by rewrite Hcreated.
Qed.

Lemma start_then_end_witness :
  endLiveSession e_later 1 (startLiveSession e1 1 sample_store).1
  = (rewritten 1 (set_ended 1700000005 (set_live 1700000000
                                         (sample_row "pending" None None)))
       (rewritten 1 (set_live 1700000000 (sample_row "pending" None None))
          sample_store),
     end_ok).
Proof.
  pose proof (start_then_end cfg0 e1 e_later e1 1 (sample_row "pending" None None)
                1700000000 sample_store (conj eq_refl eq_refl)
                (conj eq_refl eq_refl) (conj eq_refl eq_refl)
                eq_refl eq_refl eq_refl eq_refl eq_refl)
    as (_ & Hstart & _ & Hend & _).
  rewrite Hstart. exact Hend.
Defined.

(** What an executed callback does to one row. *)
Lemma callback_row e path event key db i :
  exec_fails e = false → Split path slash !! 2%nat = Some key →
  live_sessions (handleLiveStatusCallback e (callback_for path event) db).1 !! i
  = (λ r, if decide (event = "start")
          then if decide (stream_key r = key ∧ status r = "pending")
               then set_live (sql_now e) r else r
          else if decide (event = "stop")
          then if decide (stream_key r = key ∧ status r = "live")
               then set_ended (sql_now e) r else r
          else r) <$> live_sessions db !! i.
Proof.
  intros He Hkey. unfold handleLiveStatusCallback, callback_for. simpl.
  rewrite Hkey, He. simpl.
  destruct (decide (event = "start")).
  { unfold Exec, callback_start_statement, update_live_sessions. simpl.
    pose proof (updated_lookup (where_stream_key_status key "pending")
                  (set_live (sql_now e)) db i) as Hl.
    unfold updated in Hl. simpl in Hl. rewrite Hl.
    destruct (live_sessions db !! i) as [r|]; simpl; [|done].
    unfold where_stream_key_status.
    destruct (decide (stream_key r = key ∧ status r = "pending")) as [[? ?]|Hn].
    - by rewrite !bool_decide_eq_true_2.
    - destruct (decide (stream_key r = key)); destruct (decide (status r = "pending"));
        try tauto;
        rewrite ?(bool_decide_eq_false_2 (stream_key r = key)) by done;
        rewrite ?(bool_decide_eq_false_2 (status r = "pending")) by done;
        by rewrite ?andb_false_r. }
  destruct (decide (event = "stop")).
  { unfold Exec, callback_stop_statement, update_live_sessions. simpl.
    pose proof (updated_lookup (where_stream_key_status key "live")
                  (set_ended (sql_now e)) db i) as Hl.
    unfold updated in Hl. simpl in Hl. rewrite Hl.
    destruct (live_sessions db !! i) as [r|]; simpl; [|done].
    unfold where_stream_key_status.
    destruct (decide (stream_key r = key ∧ status r = "live")) as [[? ?]|Hn].
    - by rewrite !bool_decide_eq_true_2.
    - destruct (decide (stream_key r = key)); destruct (decide (status r = "live"));
        try tauto;
        rewrite ?(bool_decide_eq_false_2 (stream_key r = key)) by done;
        rewrite ?(bool_decide_eq_false_2 (status r = "live")) by done;
        by rewrite ?andb_false_r. }
  by destruct (live_sessions db !! i).
Qed.

(** X10.  Create, then the callbacks of Livego.  After a Create that
    answered 201, a start callback for the path [/live/<key>] of the key it
    answered, executed by the store, makes the new session [live] and stamps
    its start time; a stop callback after that makes it [ended] and stamps
    its end time.  Get on the session answers 500 "Failed to get live
    session" after the start callback, the end time being unwritten, and
    the [ended] session with both timestamps after the stop callback. *)
Theorem create_then_callbacks cfg e e2 e3 e' courseID streamKey db :
  exec_fails e = false → result_fails e = false →
  generateStreamKey e = Some streamKey →
  live_sessions db !! live_sessions_auto_increment db = None →
  createStreamInLivego cfg e streamKey = None →
  exec_fails e2 = false → exec_fails e3 = false → exec_fails e' = false →
  let id := live_sessions_auto_increment db in
  let row := pending_row courseID streamKey (sql_now e) in
  let created := (createLiveSession cfg e (BindOk courseID) db).1 in
  let started :=
    (handleLiveStatusCallback e2 (callback_for ("/live/" +:+ streamKey) "start")
       created).1 in
  let stopped :=
    (handleLiveStatusCallback e3 (callback_for ("/live/" +:+ streamKey) "stop")
       started).1 in
  live_sessions started !! id = Some (set_live (sql_now e2) row)
  ∧ getLiveSession cfg e' id started = session_unreadable
  ∧ live_sessions stopped !! id
    = Some (set_ended (sql_now e3) (set_live (sql_now e2) row))
  ∧ getLiveSession cfg e' id stopped
    = reply StatusOK
        (JSession {| ID := id; CourseID := courseID; StreamKey := streamKey;
                     Status := "ended"; StartTime := Some (sql_now e2);
                     EndTime := Some (sql_now e3);
                     CreatedAt := Some (sql_now e); PlayURLs := ∅ |}).
Proof.
  intros He Hr Hkey Hfree Hlivego He2 He3 He' id row created started stopped.
  pose proof (generateStreamKey_format e streamKey Hkey) as (_ & _ & Hsplit).
  assert (Hseg : Split ("/live/" +:+ streamKey) slash !! 2%nat = Some streamKey)
    by by rewrite Hsplit.
  assert (Hcreated : live_sessions created !! id = Some row).
  { subst created.
    rewrite (createLiveSession_accepts cfg e courseID streamKey db) by done.
    simpl. by rewrite lookup_insert_eq. }
  assert (Hstarted : live_sessions started !! id = Some (set_live (sql_now e2) row)).
  { subst started. rewrite (callback_row e2 _ _ streamKey) by done.
    rewrite Hcreated. simpl. by rewrite decide_True. }
  assert (Hstopped : live_sessions stopped !! id
                     = Some (set_ended (sql_now e3) (set_live (sql_now e2) row))).
  { subst stopped. rewrite (callback_row e3 _ _ streamKey) by done.
    rewrite Hstarted. simpl. by rewrite decide_True. }
  split; [done|]. split; [|split; [done|]].
  - rewrite getLiveSession_row by done. by rewrite Hstarted.
  - rewrite getLiveSession_row by done. by rewrite Hstopped.
Qed.

Lemma create_then_callbacks_witness :
  live_sessions
    (handleLiveStatusCallback e_later
       (callback_for ("/live/" +:+ "live_1700000000_ABCDEFGHIJ") "start")
       (createLiveSession cfg1 e1 (BindOk 42) sample_store).1).1 !! 4
  = Some (set_live 1700000005
            (pending_row 42 "live_1700000000_ABCDEFGHIJ" 1700000000)).
Proof.
  apply (create_then_callbacks cfg1 e1 e_later e_later e1 42
           "live_1700000000_ABCDEFGHIJ" sample_store); reflexivity.
Defined.

Lemma updated_ext cond cond' set db :
  (∀ i r, live_sessions db !! i = Some r → cond i r = cond' i r) →
  updated cond set db = updated cond' set db.
Proof.
  intros H. unfold updated. f_equal. apply map_eq; intros i.
  rewrite !map_lookup_imap.
  destruct (live_sessions db !! i) as [r|] eqn:Hi; simpl; [|done].
  by rewrite (H i r Hi).
Qed.

Lemma exec_update_ext fails cond cond' set db :
  (∀ i r, live_sessions db !! i = Some r → cond i r = cond' i r) →
  (Exec fails (update_live_sessions cond set) db).1
  = (Exec fails (update_live_sessions cond' set) db).1.
Proof.
  intros H. unfold Exec, update_live_sessions. destruct fails; [done|].
  simpl. by apply updated_ext.
Qed.

Lemma startLiveSession_store e id db :
  (startLiveSession e id db).1 = (Exec (exec_fails e) (start_statement e id) db).1.
Proof. unfold startLiveSession. by destruct (Exec _ _ db). Qed.

Lemma endLiveSession_store e id db :
  (endLiveSession e id db).1 = (Exec (exec_fails e) (end_statement e id) db).1.
Proof. unfold endLiveSession. by destruct (Exec _ _ db). Qed.

Lemma where_key_is_where_id key id st r db :
  live_sessions db !! id = Some r → stream_key r = key →
  (∀ j r', live_sessions db !! j = Some r' → stream_key r' = key → j = id) →
  ∀ i r', live_sessions db !! i = Some r' →
          where_stream_key_status key st i r' = where_id_status id st i r'.
Proof.
  intros Hrow Hkey Honly i r' Hi. unfold where_stream_key_status, where_id_status.
  f_equal. apply bool_decide_ext. split.
  - intros Hk. by apply (Honly i r').
  - intros ->. congruence.
Qed.

(** X11.  For a session that is the only one with its stream key, the
    callback does to the store exactly what the request by identifier
    does: a start callback what Start does, a stop callback what End
    does, under the same environment. *)
Theorem callback_is_start_for_unique_key e path key id r db :
  Split path slash !! 2%nat = Some key →
  live_sessions db !! id = Some r → stream_key r = key →
  (∀ j r', live_sessions db !! j = Some r' → stream_key r' = key → j = id) →
  (handleLiveStatusCallback e (callback_for path "start") db).1
  = (startLiveSession e id db).1
  ∧ (handleLiveStatusCallback e (callback_for path "stop") db).1
    = (endLiveSession e id db).1.
Proof.
  intros Hseg Hrow Hkey Honly.
  rewrite startLiveSession_store, endLiveSession_store.
  unfold handleLiveStatusCallback, callback_for. simpl. rewrite Hseg. simpl.
  split; apply exec_update_ext; by eapply where_key_is_where_id.
Qed.

Lemma callback_is_start_for_unique_key_witness :
  (handleLiveStatusCallback e1
     (callback_for "/live/live_1700000000_pending" "start") sample_store).1
  = (startLiveSession e1 1 sample_store).1.
Proof.
  apply (callback_is_start_for_unique_key e1 "/live/live_1700000000_pending"
           "live_1700000000_pending" 1 (sample_row "pending" None None)
           sample_store); try reflexivity.
  intros j r' Hj Hk.
  apply sample_store_ids in Hj as [[-> _]|[[_ ->]|[_ ->]]];
    [reflexivity|discriminate Hk|discriminate Hk].
Defined.

(** X12.  The callback goes by stream key alone, so it moves every
    session that has the key and is in the guarded state, and no other:
    after an executed start callback a row is rewritten to [live], with the
    start time of the callback, exactly when it had the key and was
    [pending]; two [pending] sessions that share a key are both started by
    the one callback. *)
Theorem callback_moves_every_session_of_key e path key db :
  exec_fails e = false → Split path slash !! 2%nat = Some key →
  let after := (handleLiveStatusCallback e (callback_for path "start") db).1 in
  (∀ i r, live_sessions db !! i = Some r →
     live_sessions after !! i
     = Some (if decide (stream_key r = key ∧ status r = "pending")
             then set_live (sql_now e) r else r))
  ∧ (∀ i, live_sessions db !! i = None → live_sessions after !! i = None)
  ∧ (∀ i j r r', i ≠ j →
     live_sessions db !! i = Some r → live_sessions db !! j = Some r' →
     stream_key r = key → stream_key r' = key →
     status r = "pending" → status r' = "pending" →
     live_sessions after !! i = Some (set_live (sql_now e) r)
     ∧ live_sessions after !! j = Some (set_live (sql_now e) r')).
Proof.
  intros He Hseg after. subst after.
  assert (Hrow : ∀ i r, live_sessions db !! i = Some r →
    live_sessions (handleLiveStatusCallback e (callback_for path "start") db).1 !! i
    = Some (if decide (stream_key r = key ∧ status r = "pending")
            then set_live (sql_now e) r else r)).
  { intros i r Hi. rewrite (callback_row e path "start" key) by done.
    by rewrite Hi. }
  split; [done|]. split.
  - intros i Hi. rewrite (callback_row e path "start" key) by done. by rewrite Hi.
  - intros i j r r' _ Hi Hj Hk Hk' Hst Hst'.
    rewrite (Hrow i r Hi), (Hrow j r' Hj). by rewrite !decide_True.
Qed.

(** Two pending sessions created with the same stream key. *)
Lemma callback_moves_every_session_of_key_witness :
  let twins := (createLiveSession cfg1 e_second (BindOk 43)
                  (createLiveSession cfg1 e_first (BindOk 42) empty_store).1).1 in
  let after := (handleLiveStatusCallback e_later
                  (callback_for "/live/live_1700000000_AAAAAAAAAA" "start")
                  twins).1 in
  live_sessions after !! 1
  = Some (set_live 1700000005 (pending_row 42 "live_1700000000_AAAAAAAAAA" 1700000000))
  ∧ live_sessions after !! 2
    = Some (set_live 1700000005
              (pending_row 43 "live_1700000000_AAAAAAAAAA" 1700000000)).
Proof.
  intros twins after.
  apply (proj2 (proj2 (callback_moves_every_session_of_key e_later
                         "/live/live_1700000000_AAAAAAAAAA"
                         "live_1700000000_AAAAAAAAAA" twins eq_refl eq_refl))
           1 2); try reflexivity. done.
Defined.

(** ** Driver errors *)

(** X13.  What the driver's errors do to Start.  When [db.Exec] fails
    the session is left as it was and the answer is 500; when [db.Exec]
    succeeds and [RowsAffected] fails, the answer is 500 although the
    [pending] session has been made [live] and stamped.  End behaves the
    same way on a [live] session. *)
Theorem start_end_driver_errors e id r db :
  (exec_fails e = true →
   startLiveSession e id db
   = (db, reply StatusInternalServerError (JError "Failed to start live session"))
   ∧ endLiveSession e id db
     = (db, reply StatusInternalServerError (JError "Failed to end live session")))
  ∧ (exec_fails e = false → result_fails e = true →
     live_sessions db !! id = Some r →
     (status r = "pending" →
      startLiveSession e id db
      = (rewritten id (set_live (sql_now e) r) db,
         reply StatusInternalServerError (JError "Failed to check rows affected")))
     ∧ (status r = "live" →
        endLiveSession e id db
        = (rewritten id (set_ended (sql_now e) r) db,
           reply StatusInternalServerError
             (JError "Failed to check rows affected")))).
Proof.
  split.
  - intros He. unfold startLiveSession, endLiveSession, Exec. by rewrite He.
  - intros He Hr Hrow.
    unfold startLiveSession, endLiveSession, start_statement, end_statement.
    rewrite He, !exec_update_by_id, Hrow. split; intros Hst.
    + rewrite decide_True by done. unfold start_reply, RowsAffected. by rewrite Hr.
    + rewrite decide_True by done. unfold end_reply, RowsAffected. by rewrite Hr.
Qed.

Lemma start_end_driver_errors_witness :
  startLiveSession e_rows_affected_fails 1 sample_store
  = (rewritten 1 (set_live 1700000005 (sample_row "pending" None None)) sample_store,
     reply StatusInternalServerError (JError "Failed to check rows affected")).
Proof.
  apply (proj1 (proj2 (start_end_driver_errors e_rows_affected_fails 1
                         (sample_row "pending" None None) sample_store)
                  eq_refl eq_refl eq_refl)).
  reflexivity.
Defined.

(** X14.  When the insert of Create is executed and [LastInsertId]
    fails, Create answers 500 "Failed to get session ID" and returns
    before the provisioning call and before any compensation: the
    [pending] row stays in the store, whatever Livego would have answered.
    The row is there for later requests: Get on its identifier does not
    answer 404 but the 500 of a row with unwritten timestamps, and Start on
    it is accepted. *)
Theorem create_keeps_row_when_id_unknown cfg e e' courseID streamKey db :
  exec_fails e = false → result_fails e = true →
  generateStreamKey e = Some streamKey →
  live_sessions db !! live_sessions_auto_increment db = None →
  exec_fails e' = false → result_fails e' = false →
  let id := live_sessions_auto_increment db in
  let out := createLiveSession cfg e (BindOk courseID) db in
  out.2 = reply StatusInternalServerError (JError "Failed to get session ID")
  ∧ live_sessions out.1 !! id
    = Some (pending_row courseID streamKey (sql_now e))
  ∧ getLiveSession cfg e' id out.1 = session_unreadable
  ∧ (startLiveSession e' id out.1).2 = start_ok.
Proof.
  intros He Hr Hkey Hfree He' Hr' id out. subst out id.
  assert (createLiveSession cfg e (BindOk courseID) db
          = (with_live_sessions db
               (<[live_sessions_auto_increment db :=
                    pending_row courseID streamKey (sql_now e)]> (live_sessions db))
               (live_sessions_auto_increment db + 1),
             reply StatusInternalServerError (JError "Failed to get session ID")))
    as ->.
  { unfold createLiveSession. rewrite Hkey.
    unfold Exec, insert_live_session. rewrite He. cbv beta zeta.
    rewrite Hfree. unfold LastInsertId. by rewrite Hr. }
  cbn [fst snd]. split; [done|].
  assert (Hrow : live_sessions
                   (with_live_sessions db
                      (<[live_sessions_auto_increment db :=
                           pending_row courseID streamKey (sql_now e)]>
                         (live_sessions db))
                      (live_sessions_auto_increment db + 1))
                   !! live_sessions_auto_increment db
                 = Some (pending_row courseID streamKey (sql_now e))).
  { simpl. by rewrite lookup_insert_eq. }
  split; [done|]. split.
  - rewrite getLiveSession_row by done. by rewrite Hrow.
  - rewrite startLiveSession_spec by done. by rewrite Hrow.
Qed.

Lemma create_keeps_row_when_id_unknown_witness :
  live_sessions
    (createLiveSession cfg1 e_rows_affected_fails (BindOk 42) sample_store).1 !! 4
  = Some (pending_row 42 "live_1700000005_aaaaaaaaaa" 1700000005).
Proof.
  apply (create_keeps_row_when_id_unknown cfg1 e_rows_affected_fails e1 42
           "live_1700000005_aaaaaaaaaa" sample_store); reflexivity.
Defined.

(** X15.  An identifier spent on a failed Create is not given out again:
    after a Create whose provisioning failed and whose row was deleted,
    the next Create that succeeds answers the identifier after that one. *)
Theorem create_after_rollback cfg e e2 courseID courseID2 streamKey streamKey2 db :
  exec_fails e = false → result_fails e = false → rollback_fails e = false →
  generateStreamKey e = Some streamKey →
  live_sessions db !! live_sessions_auto_increment db = None →
  createStreamInLivego cfg e streamKey ≠ None →
  exec_fails e2 = false → result_fails e2 = false →
  generateStreamKey e2 = Some streamKey2 →
  live_sessions db !! (live_sessions_auto_increment db + 1) = None →
  createStreamInLivego cfg e2 streamKey2 = None →
  let failed := createLiveSession cfg e (BindOk courseID) db in
  let next := createLiveSession cfg e2 (BindOk courseID2) failed.1 in
  failed.2 = provisioning_failed
  ∧ live_sessions failed.1 = live_sessions db
  ∧ ID <$> session_of next.2 = Some (live_sessions_auto_increment db + 1)
  ∧ live_sessions next.1 !! live_sessions_auto_increment db = None.
Proof.
  intros He Hr Hroll Hkey Hfree Hlivego He2 Hr2 Hkey2 Hfree2 Hlivego2 failed next.
  assert (Hfailed : failed
                    = (with_live_sessions db (live_sessions db)
                         (live_sessions_auto_increment db + 1),
                       provisioning_failed)).
  { subst failed. unfold createLiveSession. rewrite Hkey.
    unfold Exec at 1, insert_live_session. rewrite He. cbv beta zeta.
    rewrite Hfree. unfold LastInsertId. rewrite Hr. simpl.
    destruct (createStreamInLivego cfg e streamKey); [|done].
    unfold Exec, delete_live_session. rewrite Hroll. simpl.
    unfold with_live_sessions. simpl. by rewrite delete_insert_id. }
  subst next. rewrite Hfailed. cbn [fst snd]. split; [done|]. split; [done|].
  rewrite (createLiveSession_accepts cfg e2 courseID2 streamKey2
             (with_live_sessions db (live_sessions db)
                (live_sessions_auto_increment db + 1))
             He2 Hr2 Hkey2 Hfree2 Hlivego2).
  simpl. split; [done|].
  rewrite lookup_insert_ne by lia. done.
Qed.

Lemma create_after_rollback_witness :
  ID <$> session_of
           (createLiveSession cfg1 e1 (BindOk 43)
              (createLiveSession cfg1 e_livego_down (BindOk 42) sample_store).1).2
  = Some 5.
Proof.
  apply (create_after_rollback cfg1 e_livego_down e1 42 43
           "live_1700000000_AAAAAAAAAA" "live_1700000000_ABCDEFGHIJ" sample_store);
    try reflexivity.
  vm_compute. discriminate.
Defined.

(** ** The two groups of routes *)

(** X16.  The live-session routes never touch the [questions] table or
    its counter, the question routes never touch the [live_sessions] table
    or its counter, and the two reading routes change nothing at all. *)
Theorem routes_keep_to_their_table cfg e req db :
  let db' := (initRouter cfg e req db).1 in
  ((∀ q, req ≠ PostQuestionCreate q) →
     questions db' = questions db
     ∧ questions_auto_increment db' = questions_auto_increment db)
  ∧ ((∀ c, req ≠ PostLiveSessions c) → (∀ id, req ≠ PostLiveSessionStart id) →
     (∀ id, req ≠ PostLiveSessionEnd id) → (∀ c, req ≠ PostLiveStatus c) →
     live_sessions db' = live_sessions db
     ∧ live_sessions_auto_increment db' = live_sessions_auto_increment db)
  ∧ ((∃ id, req = GetLiveSession id) ∨ (∃ c q, req = GetQuestionPush c q) →
     db' = db).
Proof.
  intros db'. subst db'. split; [|split].
  - intros Hq. destruct req as [req|id|id|id|req|req|c q]; simpl; try done.
    + destruct (createLiveSession_store cfg e req db)
        as [->|[_ [(r0 & _ & ->)| ->]]]; done.
    + rewrite startLiveSession_store.
      by destruct (exec_update_rest (exec_fails e) (where_id_status id "pending")
                     (set_live (sql_now e)) db) as (_ & ? & ?).
    + rewrite endLiveSession_store.
      by destruct (exec_update_rest (exec_fails e) (where_id_status id "live")
                     (set_ended (sql_now e)) db) as (_ & ? & ?).
    + unfold handleLiveStatusCallback. destruct req as [msg|cb]; [done|].
      destruct (Split (StreamPath cb) slash !! 2%nat) as [key|]; [|done]. simpl.
      destruct (decide (CallbackStatus cb = "start")).
      { by destruct (exec_update_rest (exec_fails e)
                       (where_stream_key_status key "pending")
                       (set_live (sql_now e)) db) as (_ & ? & ?). }
      destruct (decide (CallbackStatus cb = "stop")); [|done].
      by destruct (exec_update_rest (exec_fails e)
                     (where_stream_key_status key "live")
                     (set_ended (sql_now e)) db) as (_ & ? & ?).
    + by destruct (Hq req).
  - intros H1 H2 H3 H4. destruct req as [req|id|id|id|req|req|c q]; simpl; try done.
    + by destruct (H1 req).
    + by destruct (H2 id).
    + by destruct (H3 id).
    + by destruct (H4 req).
    + unfold createQuestion. destruct req as [msg|q]; [done|].
      unfold Exec, insert_question. destruct (exec_fails e); [done|]. cbv beta zeta.
      destruct (questions db !! questions_auto_increment db); [done|].
      unfold LastInsertId. by destruct (result_fails e).
  - by intros [[id ->]|(c & q & ->)].
Qed.

Lemma routes_keep_to_their_table_witness :
  questions (initRouter cfg0 e1 (PostLiveSessionStart 1) sample_store).1
  = questions sample_store
  ∧ questions_auto_increment (initRouter cfg0 e1 (PostLiveSessionStart 1) sample_store).1
    = questions_auto_increment sample_store.
Proof.
  apply (proj1 (routes_keep_to_their_table cfg0 e1 (PostLiveSessionStart 1)
                  sample_store)).
  discriminate.
Defined.

(** ** The tally of answers *)

Lemma getResult_found same e questionID q row :
  exec_fails e = false → questions (tables q) !! questionID = Some row →
  getResult same e false questionID q
  = match answers_of questionID (answers q) with
    | [] => result_failed
    | selected =>
        counts (Z.of_nat (length selected))
          (Z.of_nat (length (correct_answers same (q_answer row) selected)))
    end.
Proof.
  intros He Hrow. unfold getResult, tally. rewrite He, Hrow.
  by destruct (answers_of questionID (answers q)).
Qed.

(** X17.  The tally.  For a question that does not exist [getResult]
    answers 404, whatever answers are stored under its identifier.  For a
    question that exists and no driver error, it answers 200 with the
    number of answers stored for the question and the number of those equal
    to the correct answer, which is between zero and the total, provided
    there is at least one answer; with no answer at all it answers 500
    "Failed to get result". *)
Theorem getResult_counts same e questionID q :
  exec_fails e = false →
  (questions (tables q) !! questionID = None →
   ∀ tally_fails, getResult same e tally_fails questionID q = question_not_found)
  ∧ (∀ row, questions (tables q) !! questionID = Some row →
     (answers_of questionID (answers q) = [] →
      getResult same e false questionID q = result_failed)
     ∧ (answers_of questionID (answers q) ≠ [] →
        ∃ total correct,
          getResult same e false questionID q = counts total correct
          ∧ total = Z.of_nat (length (answers_of questionID (answers q)))
          ∧ correct
            = Z.of_nat (length (correct_answers same (q_answer row)
                                  (answers_of questionID (answers q))))
          ∧ (0 ≤ correct ≤ total)%Z)).
Proof.
  intros He. split.
  - intros Hnone tally_fails. unfold getResult. by rewrite He, Hnone.
  - intros row Hrow. rewrite (getResult_found same e questionID q row He Hrow).
    split; [by intros ->|]. intros Hne.
    destruct (answers_of questionID (answers q)) as [|a l] eqn:Hsel; [done|].
    eexists _, _. split; [reflexivity|]. split; [done|]. split; [done|].
    pose proof (length_filter (λ a0, same (a_answer a0) (q_answer row) = true) (a :: l)).
    unfold correct_answers. lia.
Qed.

Lemma getResult_counts_witness :
  getResult same_bytes e1 false 2 sample_quiz = result_failed
  ∧ ∃ total correct,
      getResult same_bytes e1 false 1 sample_quiz = counts total correct
      ∧ total = 3 ∧ correct = 2 ∧ (0 ≤ correct ≤ total)%Z.
Proof.
  pose proof (proj2 (getResult_counts same_bytes e1 2 sample_quiz eq_refl) _ eq_refl)
    as [Hnone _].
  pose proof (proj2 (getResult_counts same_bytes e1 1 sample_quiz eq_refl) _ eq_refl)
    as [_ Hsome].
  split; [by apply Hnone|].
  destruct Hsome as (total & correct & Hres & -> & -> & Hle); [done|].
  by exists 3, 2.
Defined.

Lemma answers_of_snoc questionID rows a :
  answers_of questionID (rows ++ [a])
  = (answers_of questionID rows
     ++ (if decide (a_question_id a = questionID) then [a] else []))%list.
Proof.
  unfold answers_of. rewrite filter_app. by f_equal.
Qed.

(** X18.  Submit then tally.  A submission that the store accepts is
    answered 200 and adds one answer: the total of its question goes up by
    one, the number of correct answers goes up by one exactly when the
    submitted text equals the correct answer, and the tally of every other
    question is as before.  Neither the question nor the student is
    looked at: the same student may answer again, and an answer to a
    question that does not exist is stored like any other, its tally
    staying 404.  A submission on which the driver fails is answered 500
    and stores nothing. *)
Theorem submit_then_result same e e' answer q :
  (exec_fails e = true →
   submitAnswer e (BindOk answer) q
   = (q, reply StatusInternalServerError (JError "Failed to submit answer")))
  ∧ (exec_fails e = false → exec_fails e' = false →
     let q' := (submitAnswer e (BindOk answer) q).1 in
     (submitAnswer e (BindOk answer) q).2
     = reply StatusOK (JMessage "Answer submitted successfully")
     ∧ tables q' = tables q
     ∧ answers q'
       = (answers q ++ [{| a_question_id := QuestionID answer;
                           a_student_id := StudentID answer;
                           a_answer := Answer answer |}])%list
     ∧ (∀ row, questions (tables q) !! QuestionID answer = Some row →
        getResult same e' false (QuestionID answer) q'
        = counts
            (Z.of_nat (length (answers_of (QuestionID answer) (answers q))) + 1)
            (Z.of_nat (length (correct_answers same (q_answer row)
                                 (answers_of (QuestionID answer) (answers q))))
             + (if same (Answer answer) (q_answer row) then 1 else 0)))
     ∧ (questions (tables q) !! QuestionID answer = None →
        getResult same e' false (QuestionID answer) q' = question_not_found)
     ∧ (∀ other tally_fails, other ≠ QuestionID answer →
        getResult same e' tally_fails other q'
        = getResult same e' tally_fails other q)).
Proof.
  split.
  - intros He. unfold submitAnswer. by rewrite He.
  - intros He He' q'. subst q'. unfold submitAnswer. rewrite He. simpl.
    split; [done|]. split; [done|]. split; [done|]. split; [|split].
    + intros row Hrow.
      rewrite (getResult_found same e' _ _ row He') by done. simpl.
      rewrite answers_of_snoc. simpl. rewrite decide_True by done.
      destruct (answers_of (QuestionID answer) (answers q) ++ _)%list
        as [|a l] eqn:Hsel.
      { by apply app_eq_nil in Hsel as [_ [=]]. }
      apply (f_equal length) in Hsel as Hlen. rewrite length_app in Hlen.
      simpl in Hlen. rewrite <- Hsel. unfold correct_answers. rewrite filter_app, !length_app.
      rewrite filter_cons, filter_nil. simpl.
      destruct (same (Answer answer) (q_answer row)) eqn:Hsame.
      * rewrite decide_True by done. simpl. f_equal; lia.
      * rewrite decide_False by done. simpl. f_equal; lia.
    + intros Hnone. unfold getResult. simpl. by rewrite He', Hnone.
    + intros other tally_fails Hother. unfold getResult. simpl.
      rewrite answers_of_snoc. simpl. rewrite decide_False by done.
      by rewrite app_nil_r.
Qed.

Lemma submit_then_result_witness :
  getResult same_bytes e1 false 2
    (submitAnswer e1 (BindOk {| QuestionID := 2; StudentID := 10; Answer := "A" |})
       sample_quiz).1
  = counts 1 1.
Proof.
  pose proof (proj2 (submit_then_result same_bytes e1 e1
                       {| QuestionID := 2; StudentID := 10; Answer := "A" |}
                       sample_quiz) eq_refl eq_refl) as (_ & _ & _ & Hcount & _).
  exact (Hcount _ eq_refl).
Defined.

(** ** Create then fetch of a question *)

(** X19.  A question that Create has stored cannot be fetched: when the
    driver reports no error and the next identifier is free, Create
    answers 201 with that identifier and the question as submitted, and the
    fetch of that identifier then answers 500 "Failed to get question"
    under the course of the question and 404 under any other course, as
    it answered 404 before the question existed. *)
Theorem create_question_then_push e e' question db :
  exec_fails e = false → result_fails e = false →
  questions db !! questions_auto_increment db = None →
  exec_fails e' = false →
  let id := questions_auto_increment db in
  let out := createQuestion e (BindOk question) db in
  out.2 = reply StatusCreated (JQuestion (with_id question id))
  ∧ pushQuestion e' (QCourseID question) id out.1
    = reply StatusInternalServerError (JError "Failed to get question")
  ∧ (∀ course, course ≠ QCourseID question →
     pushQuestion e' course id out.1
     = reply StatusNotFound (JError "Question not found"))
  ∧ (∀ course, pushQuestion e' course id db
               = reply StatusNotFound (JError "Question not found")).
Proof.
  intros He Hr Hfree He' id out. subst out id.
  unfold createQuestion, Exec, insert_question. rewrite He. cbv beta zeta.
  rewrite Hfree. unfold LastInsertId. rewrite Hr. simpl.
  split; [done|]. unfold pushQuestion, select_question. rewrite He'. simpl.
  rewrite lookup_insert_eq, Hfree. simpl. split; [|split].
  - by rewrite decide_True.
  - intros course Hc. by rewrite decide_False.
  - done.
Qed.

Lemma create_question_then_push_witness :
  pushQuestion e1 7 1
    (createQuestion e1 (BindOk (question_with ["a"; "b"])) empty_store).1
  = reply StatusInternalServerError (JError "Failed to get question").
Proof.
  apply (create_question_then_push e1 e1 (question_with ["a"; "b"]) empty_store);
    reflexivity.
Defined.

(** ** What the answers of the handlers tell about the store *)

Lemma createStreamInLivego_nil cfg e streamKey :
  createStreamInLivego cfg e streamKey = None →
  ∃ status,
    livego_post e (LivegoURL cfg +:+ "/api/stream/add?stream=" +:+ streamKey)
    = HttpResponse StatusOK status.
Proof.
  unfold createStreamInLivego, http_Post.
  destruct (has_prefix_fold "http://" _ || has_prefix_fold "https://" _);
    [|discriminate].
  destruct (livego_post e _) as [msg|status_code status]; [discriminate|].
  destruct (decide (status_code ≠ StatusOK)) as [|Heq]; [discriminate|].
  intros _. exists status. f_equal. by apply dec_stable.
Qed.

(** X20.  Create answers 201 only when everything went well: the body
    was bound, the key it answers is the generated one, Livego answered 200
    to the post for exactly that key, the identifier it answers is the one
    the counter held, and the [pending] row of that course and key is in
    the store under that identifier. *)
Theorem create_201_means_stored cfg e req db s :
  (createLiveSession cfg e req db).2 = reply StatusCreated (JSession s) →
  req = BindOk (CourseID s)
  ∧ generateStreamKey e = Some (StreamKey s)
  ∧ (∃ status,
       livego_post e (LivegoURL cfg +:+ "/api/stream/add?stream=" +:+ StreamKey s)
       = HttpResponse StatusOK status)
  ∧ ID s = live_sessions_auto_increment db
  ∧ live_sessions db !! ID s = None
  ∧ live_sessions (createLiveSession cfg e req db).1 !! ID s
    = Some (pending_row (CourseID s) (StreamKey s) (sql_now e)).
Proof.
  destruct (createLiveSession cfg e req db) as [db' resp] eqn:HC. simpl.
  intros ->. unfold createLiveSession in HC.
  destruct req as [msg|courseID]; [discriminate|].
  destruct (generateStreamKey e) as [streamKey|]; [|discriminate].
  unfold Exec, insert_live_session in HC.
  destruct (exec_fails e); [discriminate|]. cbv beta zeta in HC.
  destruct (live_sessions db !! live_sessions_auto_increment db) eqn:Hfree;
    [discriminate|].
  unfold LastInsertId in HC. destruct (result_fails e); [discriminate|].
  simpl in HC.
  destruct (createStreamInLivego cfg e streamKey) eqn:Hlivego; [discriminate|].
  injection HC as <- <-. simpl.
  split; [done|]. split; [done|].
  split; [by apply createStreamInLivego_nil|].
  split; [done|]. split; [done|]. by rewrite lookup_insert_eq.
Qed.

Lemma create_201_means_stored_witness :
  live_sessions (createLiveSession cfg1 e1 (BindOk 42) empty_store).1 !! 1
  = Some (pending_row 42 "live_1700000000_ABCDEFGHIJ" 1700000000).
Proof.
  apply (create_201_means_stored cfg1 e1 (BindOk 42) empty_store
           {| ID := 1; CourseID := 42; StreamKey := "live_1700000000_ABCDEFGHIJ";
              Status := "pending"; StartTime := None; EndTime := None;
              CreatedAt := Some 1700000000;
              PlayURLs := getPlayURLs cfg1 "live_1700000000_ABCDEFGHIJ" |}).
  reflexivity.
Defined.

Lemma exec_update_no_row fails cond set db db' result :
  Exec fails (update_live_sessions cond set) db = (db', Some result) →
  rows_affected result = 0 → db' = db.
Proof.
  unfold Exec, update_live_sessions. destruct fails; [discriminate|].
  intros [= <- <-]. simpl. intros H. apply updated_none, selected_zero. lia.
Qed.

Lemma start_reply_400 e res :
  code (start_reply e res) = StatusBadRequest ∨ code (start_reply e res) = StatusNotFound →
  ∃ result, res = Some result ∧ rows_affected result = 0.
Proof.
  unfold start_reply, RowsAffected. destruct res as [result|]; simpl.
  - destruct (result_fails e); simpl; [by intros [|]|].
    destruct (decide (rows_affected result = 0)); simpl; [eauto|by intros [|]].
  - by intros [|].
Qed.

Lemma end_reply_400 e res :
  code (end_reply e res) = StatusBadRequest ∨ code (end_reply e res) = StatusNotFound →
  ∃ result, res = Some result ∧ rows_affected result = 0.
Proof.
  unfold end_reply, RowsAffected. destruct res as [result|]; simpl.
  - destruct (result_fails e); simpl; [by intros [|]|].
    destruct (decide (rows_affected result = 0)); simpl; [eauto|by intros [|]].
  - by intros [|].
Qed.

(** X21.  A request that is answered with a client error, 400 or 404,
    has changed nothing in the store, whichever route it took and whatever
    the driver did. *)
Theorem client_error_changes_nothing cfg e req db :
  code (initRouter cfg e req db).2 = StatusBadRequest
  ∨ code (initRouter cfg e req db).2 = StatusNotFound →
  (initRouter cfg e req db).1 = db.
Proof.
  destruct req as [req|id|id|id|req|req|c q]; simpl; try done.
  - unfold createLiveSession. destruct req as [msg|courseID]; [done|].
    destruct (generateStreamKey e) as [streamKey|]; [|by intros [|]].
    destruct (Exec _ _ db) as [db1 [result|]]; [|by intros [|]].
    destruct (LastInsertId e result); [|by intros [|]].
    destruct (createStreamInLivego cfg e streamKey); by intros [|].
  - unfold startLiveSession.
    destruct (Exec (exec_fails e) (start_statement e id) db) as [db' res] eqn:HE.
    simpl. intros (result & -> & Hzero)%start_reply_400.
    by eapply exec_update_no_row.
  - unfold endLiveSession.
    destruct (Exec (exec_fails e) (end_statement e id) db) as [db' res] eqn:HE.
    simpl. intros (result & -> & Hzero)%end_reply_400.
    by eapply exec_update_no_row.
  - unfold handleLiveStatusCallback. destruct req as [msg|cb]; [done|].
    destruct (Split (StreamPath cb) slash !! 2%nat); [by intros [|]|done].
  - unfold createQuestion. destruct req as [msg|question]; [done|].
    destruct (Exec _ _ db) as [db1 [result|]]; [|by intros [|]].
    destruct (LastInsertId e result); by intros [|].
Qed.

Lemma client_error_changes_nothing_witness :
  (initRouter cfg0 e1 (PostLiveSessionEnd 1) sample_store).1 = sample_store.
Proof.
  apply (client_error_changes_nothing cfg0 e1 (PostLiveSessionEnd 1) sample_store).
  left. reflexivity.
Defined.
